(** * A shallow embedding of the pull parser of rust-xml (src/reader/parser.rs)

    Rust [char] is a Unicode scalar value, modelled as its code point [Z];
    Rust [String] is a sequence of chars, modelled as [list Z].  The byte
    length of a [String] (its UTF-8 length) is computed explicitly where the
    source uses [len()] or byte slicing. *)

From Stdlib Require Import ZArith List String Ascii Bool Lia.
Import ListNotations.
Open Scope Z_scope.

(** ** Rust characters and strings *)

Definition rchar := Z.
Definition rstring := list Z.

(** String literals of the source (all ASCII) as [rstring]s. *)
Definition rs (s : string) : rstring :=
  map (fun a => Z.of_nat (nat_of_ascii a)) (list_ascii_of_string s).
Arguments rs : simpl never.

Definition rstring_eq_dec : forall a b : rstring, {a = b} + {a <> b} :=
  list_eq_dec Z.eq_dec.

Definition streqb (a b : rstring) : bool :=
  if rstring_eq_dec a b then true else false.

(** Number of bytes of one char in UTF-8. *)
Definition utf8_width (c : rchar) : Z :=
  if c <? 128 then 1 else if c <? 2048 then 2 else if c <? 65536 then 3 else 4.

(** [String::len]: the byte length. *)
Definition utf8_len (s : rstring) : Z := fold_right (fun c n => utf8_width c + n) 0 s.

(** [&s[a..b]] on byte offsets: [None] when an offset is not on a char
    boundary or out of range (the Rust slice panics there). *)
Fixpoint drop_bytes (n : Z) (s : rstring) : option rstring :=
  if n =? 0 then Some s
  else match s with
       | [] => None
       | c :: s' => if utf8_width c <=? n then drop_bytes (n - utf8_width c) s' else None
       end.

Fixpoint take_bytes (n : Z) (s : rstring) : option rstring :=
  if n =? 0 then Some []
  else match s with
       | [] => None
       | c :: s' =>
           if utf8_width c <=? n then
             match take_bytes (n - utf8_width c) s' with
             | Some r => Some (c :: r)
             | None => None
             end
           else None
       end.

Definition str_slice (s : rstring) (a b : Z) : option rstring :=
  match drop_bytes a s with
  | Some s' => take_bytes (b - a) s'
  | None => None
  end.

(** ** Name utilities (module [common], not in src/) *)

(** Modelled from the spec: [common::is_name_start_char], the XML
    NameStartChar production. *)
Definition in_range (lo hi c : Z) : bool := (lo <=? c) && (c <=? hi).

Definition is_name_start_char (c : rchar) : bool :=
  (c =? 58) || in_range 65 90 c || (c =? 95) || in_range 97 122 c
  || in_range 192 214 c || in_range 216 246 c || in_range 248 767 c
  || in_range 880 893 c || in_range 895 8191 c || in_range 8204 8205 c
  || in_range 8304 8591 c || in_range 11264 12271 c || in_range 12289 55295 c
  || in_range 63744 64975 c || in_range 65008 65533 c || in_range 65536 983039 c.

(** Modelled from the spec: [common::is_name_char], the XML NameChar
    production. *)
Definition is_name_char (c : rchar) : bool :=
  is_name_start_char c || (c =? 45) || (c =? 46) || in_range 48 57 c
  || (c =? 183) || in_range 768 879 c || in_range 8255 8256 c.

(** Modelled from the spec: [common::is_whitespace_char], the XML S
    production. *)
Definition is_whitespace_char (c : rchar) : bool :=
  (c =? 32) || (c =? 9) || (c =? 10) || (c =? 13).

(** [common::Name]: prefix, local name and resolved namespace; equality is
    the derived field-wise equality. *)
Record Name := mkName {
  prefix : option rstring;
  local_name : rstring;
  namespace : option rstring
}.

Definition option_rstring_eq_dec : forall a b : option rstring, {a = b} + {a <> b}.
Proof. decide equality; apply rstring_eq_dec. Defined.

Definition Name_eq_dec : forall a b : Name, {a = b} + {a <> b}.
Proof. decide equality; try apply option_rstring_eq_dec; apply rstring_eq_dec. Defined.

Arguments Name_eq_dec : simpl never.

Definition Name_eqb (a b : Name) : bool := if Name_eq_dec a b then true else false.

Definition new_local (l : rstring) : Name := mkName None l None.

(** Modelled from the spec: the display of a [Name]
    ([{namespace}prefix:local]). *)
Definition show_name (n : Name) : rstring :=
  match namespace n with Some u => rs "{" ++ u ++ rs "}" | None => [] end
  ++ match prefix n with Some p => p ++ rs ":" | None => [] end
  ++ local_name n.

Definition show_prefix (p : option rstring) : rstring :=
  match p with Some s => rs "Some(" ++ s ++ rs ")" | None => rs "None" end.

(** Splitting on [':'] as [str::split] does. *)
Fixpoint split_colon (s : rstring) : list rstring :=
  match s with
  | [] => [[]]
  | c :: s' =>
      let parts := split_colon s' in
      if c =? 58 then [] :: parts
      else match parts with
           | p :: ps => (c :: p) :: ps
           | [] => [[c]]
           end
  end.

(** Modelled from the spec: [common::parse_name]; the buffer is split on
    [':'] into an optional prefix and a local part, neither of which may be
    empty, and a second [':'] is rejected. *)
Definition parse_name (s : rstring) : option Name :=
  match split_colon s with
  | [l] => match l with [] => None | _ => Some (mkName None l None) end
  | [p; l] => match p, l with
              | [], _ | _, [] => None
              | _, _ => Some (mkName (Some p) l None)
              end
  | _ => None
  end.

(** ** Tokens (module [reader::lexer], not in src/) *)

Inductive Token :=
| ProcessingInstructionStart | ProcessingInstructionEnd | DoctypeStart
| OpeningTagStart | ClosingTagStart | TagEnd | EmptyTagEnd
| CommentStart | CommentEnd
| Chunk (s : rstring) | Character (c : rchar) | Whitespace (c : rchar)
| CDataStart | CDataEnd | ReferenceStart | ReferenceEnd
| DoubleQuote | SingleQuote | EqualsSign.

Definition Token_eq_dec : forall a b : Token, {a = b} + {a <> b}.
Proof. decide equality; try apply Z.eq_dec; apply rstring_eq_dec. Defined.

Definition Token_eqb (a b : Token) : bool := if Token_eq_dec a b then true else false.

(** Modelled from the spec: the textual form of a token ([to_string],
    [as_static_str]), i.e. the markup it was lexed from. *)
Definition token_to_string (t : Token) : rstring :=
  match t with
  | ProcessingInstructionStart => rs "<?"
  | ProcessingInstructionEnd => rs "?>"
  | DoctypeStart => rs "<!DOCTYPE"
  | OpeningTagStart => rs "<"
  | ClosingTagStart => rs "</"
  | TagEnd => rs ">"
  | EmptyTagEnd => rs "/>"
  | CommentStart => rs "<!--"
  | CommentEnd => rs "-->"
  | Chunk s => s
  | Character c => [c]
  | Whitespace c => [c]
  | CDataStart => rs "<![CDATA["
  | CDataEnd => rs "]]>"
  | ReferenceStart => rs "&"
  | ReferenceEnd => rs ";"
  | DoubleQuote => [34]
  | SingleQuote => [39]
  | EqualsSign => rs "="
  end.

(** Modelled from the spec: [Token::contains_char_data], the tokens that may
    stand for plain character data in text. *)
Definition contains_char_data (t : Token) : bool :=
  match t with
  | Whitespace _ | Chunk _ | Character _ | TagEnd | EqualsSign
  | DoubleQuote | SingleQuote => true
  | _ => false
  end.

(** The lexer's state as seen by the parser: only its error switch
    ([disable_errors]/[enable_errors]); the tokens themselves are the
    parser's input. *)
Record PullLexer := mkLexer { errors_enabled : bool }.

(** A lexer result: a token or a lexical error message. *)
Inductive LexResult := LexOk (t : Token) | LexErr (msg : rstring).

(** ** Namespaces (module [namespace], not in src/) *)

(** Modelled from the spec: the reserved prefixes and their standard URIs. *)
Definition NS_XMLNS_PREFIX : rstring := rs "xmlns".
Definition NS_XML_PREFIX : rstring := rs "xml".
Definition NS_XMLNS_URI : rstring := rs "http://www.w3.org/2000/xmlns/".
Definition NS_XML_URI : rstring := rs "http://www.w3.org/XML/1998/namespace".
Definition NS_EMPTY_URI : rstring := [].

(** Modelled from the spec: a scope maps an optional prefix to a URI. *)
Definition Namespace := list (option rstring * rstring).

Fixpoint ns_get (ns : Namespace) (k : option rstring) : option rstring :=
  match ns with
  | [] => None
  | (k', v) :: ns' => if option_rstring_eq_dec k k' then Some v else ns_get ns' k
  end.

Fixpoint ns_put (ns : Namespace) (k : option rstring) (v : rstring) : Namespace :=
  match ns with
  | [] => [(k, v)]
  | (k', v') :: ns' =>
      if option_rstring_eq_dec k k' then (k, v) :: ns' else (k', v') :: ns_put ns' k v
  end.

(** Modelled from the spec: the namespace stack, innermost scope first. *)
Definition NamespaceStack := list Namespace.

Definition nst_push_empty (nst : NamespaceStack) : NamespaceStack := [] :: nst.

Definition nst_pop (nst : NamespaceStack) : NamespaceStack := tl nst.

(** [put] binds in the top scope. *)
Definition nst_put (nst : NamespaceStack) (k : option rstring) (v : rstring) : NamespaceStack :=
  match nst with
  | [] => []
  | top :: rest => ns_put top k v :: rest
  end.

(** [get] looks the prefix up from the innermost scope outwards. *)
Fixpoint nst_get (nst : NamespaceStack) (k : option rstring) : option rstring :=
  match nst with
  | [] => None
  | top :: rest => match ns_get top k with Some v => Some v | None => nst_get rest k end
  end.

(** [squash]: one flat scope, inner bindings shadowing outer ones. *)
Definition nst_squash (nst : NamespaceStack) : Namespace :=
  fold_right (fun top acc => fold_left (fun a kv => ns_put a (fst kv) (snd kv)) (rev top) acc)
             [] nst.

(** [NamespaceStack::default()]: one scope with the [xml] and [xmlns]
    prefixes and the empty default namespace. *)
Definition nst_default : NamespaceStack :=
  [[(Some NS_XML_PREFIX, NS_XML_URI); (Some NS_XMLNS_PREFIX, NS_XMLNS_URI); (None, NS_EMPTY_URI)]].

(** ** Events (module [reader::events]) *)

Inductive XmlVersion := Version10 | Version11.

Module events.
Inductive XmlEvent :=
| StartDocument (version : XmlVersion) (encoding : rstring) (standalone : option bool)
| EndDocument
| ProcessingInstruction (name : rstring) (data : option rstring)
| StartElement (name : Name) (attributes : list (Name * rstring)) (namespace : Namespace)
| EndElement (name : Name)
| CData (s : rstring)
| Comment (s : rstring)
| Characters (s : rstring)
| Whitespace (s : rstring)
| Error (msg : rstring).
End events.
Import events (XmlEvent).

(** ** Parser state *)

Record ParserConfig := mkConfig {
  trim_whitespace : bool;
  whitespace_to_characters : bool;
  cdata_to_characters : bool;
  ignore_comments : bool;
  coalesce_characters : bool
}.

Inductive OpeningTagSubstate :=
  InsideName | InsideTag | InsideAttributeName | AfterAttributeName | InsideAttributeValue.

Inductive ClosingTagSubstate := CTInsideName | CTAfterName.

Inductive ProcessingInstructionSubstate := PIInsideName | PIInsideData.

Inductive DeclarationSubstate :=
  BeforeVersion | InsideVersion | AfterVersion | InsideVersionValue | AfterVersionValue
| InsideEncoding | AfterEncoding | InsideEncodingValue
| BeforeStandaloneDecl | InsideStandaloneDecl | AfterStandaloneDecl
| InsideStandaloneDeclValue | AfterStandaloneDeclValue.

Inductive State :=
| OutsideTag
| InsideOpeningTag (s : OpeningTagSubstate)
| InsideClosingTag (s : ClosingTagSubstate)
| InsideProcessingInstruction (s : ProcessingInstructionSubstate)
| InsideComment
| InsideCData
| InsideDeclaration (s : DeclarationSubstate)
| InsideDoctype
| InsideReference (s : State).

Inductive QuoteToken := SingleQuoteToken | DoubleQuoteToken.

Definition as_token (q : QuoteToken) : Token :=
  match q with SingleQuoteToken => SingleQuote | DoubleQuoteToken => DoubleQuote end.

(** [AttributeData] is a pair of a name and a value. *)
Definition AttributeData := (Name * rstring)%type.

Record MarkupData := mkData {
  name : rstring;
  ref_data : rstring;
  version : option XmlVersion;
  encoding : option rstring;
  standalone : option bool;
  element_name : option Name;
  quote : option QuoteToken;
  attr_name : option Name;
  attributes : list AttributeData
}.

Record PullParser := mkParser {
  config : ParserConfig;
  lexer : PullLexer;
  st : State;
  buf : rstring;
  nst : NamespaceStack;
  data : MarkupData;
  finish_event : option XmlEvent;
  next_event : option XmlEvent;
  est : list Name;
  encountered_element : bool;
  parsed_declaration : bool;
  inside_whitespace : bool;
  read_prefix_separator : bool;
  pop_namespace : bool
}.

Definition empty_data : MarkupData :=
  mkData [] [] None None None None None None [].

(** [PullParser::new]. *)
Definition new (cfg : ParserConfig) : PullParser :=
  mkParser cfg (mkLexer true) OutsideTag [] nst_default empty_data None None []
           false false true false false.

(** Field updates of [PullParser] (the assignments [self.f = v]). *)
Definition set_config (v : ParserConfig) (p : PullParser) : PullParser :=
  mkParser v (lexer p) (st p) (buf p) (nst p) (data p) (finish_event p) (next_event p) (est p) (encountered_element p) (parsed_declaration p) (inside_whitespace p) (read_prefix_separator p) (pop_namespace p).
Definition set_lexer (v : PullLexer) (p : PullParser) : PullParser :=
  mkParser (config p) v (st p) (buf p) (nst p) (data p) (finish_event p) (next_event p) (est p) (encountered_element p) (parsed_declaration p) (inside_whitespace p) (read_prefix_separator p) (pop_namespace p).
Definition set_st (v : State) (p : PullParser) : PullParser :=
  mkParser (config p) (lexer p) v (buf p) (nst p) (data p) (finish_event p) (next_event p) (est p) (encountered_element p) (parsed_declaration p) (inside_whitespace p) (read_prefix_separator p) (pop_namespace p).
Definition set_buf (v : rstring) (p : PullParser) : PullParser :=
  mkParser (config p) (lexer p) (st p) v (nst p) (data p) (finish_event p) (next_event p) (est p) (encountered_element p) (parsed_declaration p) (inside_whitespace p) (read_prefix_separator p) (pop_namespace p).
Definition set_nst (v : NamespaceStack) (p : PullParser) : PullParser :=
  mkParser (config p) (lexer p) (st p) (buf p) v (data p) (finish_event p) (next_event p) (est p) (encountered_element p) (parsed_declaration p) (inside_whitespace p) (read_prefix_separator p) (pop_namespace p).
Definition set_data (v : MarkupData) (p : PullParser) : PullParser :=
  mkParser (config p) (lexer p) (st p) (buf p) (nst p) v (finish_event p) (next_event p) (est p) (encountered_element p) (parsed_declaration p) (inside_whitespace p) (read_prefix_separator p) (pop_namespace p).
Definition set_finish_event (v : option XmlEvent) (p : PullParser) : PullParser :=
  mkParser (config p) (lexer p) (st p) (buf p) (nst p) (data p) v (next_event p) (est p) (encountered_element p) (parsed_declaration p) (inside_whitespace p) (read_prefix_separator p) (pop_namespace p).
Definition set_next_event (v : option XmlEvent) (p : PullParser) : PullParser :=
  mkParser (config p) (lexer p) (st p) (buf p) (nst p) (data p) (finish_event p) v (est p) (encountered_element p) (parsed_declaration p) (inside_whitespace p) (read_prefix_separator p) (pop_namespace p).
Definition set_est (v : list Name) (p : PullParser) : PullParser :=
  mkParser (config p) (lexer p) (st p) (buf p) (nst p) (data p) (finish_event p) (next_event p) v (encountered_element p) (parsed_declaration p) (inside_whitespace p) (read_prefix_separator p) (pop_namespace p).
Definition set_encountered_element (v : bool) (p : PullParser) : PullParser :=
  mkParser (config p) (lexer p) (st p) (buf p) (nst p) (data p) (finish_event p) (next_event p) (est p) v (parsed_declaration p) (inside_whitespace p) (read_prefix_separator p) (pop_namespace p).
Definition set_parsed_declaration (v : bool) (p : PullParser) : PullParser :=
  mkParser (config p) (lexer p) (st p) (buf p) (nst p) (data p) (finish_event p) (next_event p) (est p) (encountered_element p) v (inside_whitespace p) (read_prefix_separator p) (pop_namespace p).
Definition set_inside_whitespace (v : bool) (p : PullParser) : PullParser :=
  mkParser (config p) (lexer p) (st p) (buf p) (nst p) (data p) (finish_event p) (next_event p) (est p) (encountered_element p) (parsed_declaration p) v (read_prefix_separator p) (pop_namespace p).
Definition set_read_prefix_separator (v : bool) (p : PullParser) : PullParser :=
  mkParser (config p) (lexer p) (st p) (buf p) (nst p) (data p) (finish_event p) (next_event p) (est p) (encountered_element p) (parsed_declaration p) (inside_whitespace p) v (pop_namespace p).
Definition set_pop_namespace (v : bool) (p : PullParser) : PullParser :=
  mkParser (config p) (lexer p) (st p) (buf p) (nst p) (data p) (finish_event p) (next_event p) (est p) (encountered_element p) (parsed_declaration p) (inside_whitespace p) (read_prefix_separator p) v.

(** Field updates of [MarkupData]. *)
Definition with_name (v : rstring) (d : MarkupData) : MarkupData :=
  mkData v (ref_data d) (version d) (encoding d) (standalone d) (element_name d) (quote d) (attr_name d) (attributes d).
Definition with_ref_data (v : rstring) (d : MarkupData) : MarkupData :=
  mkData (name d) v (version d) (encoding d) (standalone d) (element_name d) (quote d) (attr_name d) (attributes d).
Definition with_version (v : option XmlVersion) (d : MarkupData) : MarkupData :=
  mkData (name d) (ref_data d) v (encoding d) (standalone d) (element_name d) (quote d) (attr_name d) (attributes d).
Definition with_encoding (v : option rstring) (d : MarkupData) : MarkupData :=
  mkData (name d) (ref_data d) (version d) v (standalone d) (element_name d) (quote d) (attr_name d) (attributes d).
Definition with_standalone (v : option bool) (d : MarkupData) : MarkupData :=
  mkData (name d) (ref_data d) (version d) (encoding d) v (element_name d) (quote d) (attr_name d) (attributes d).
Definition with_element_name (v : option Name) (d : MarkupData) : MarkupData :=
  mkData (name d) (ref_data d) (version d) (encoding d) (standalone d) v (quote d) (attr_name d) (attributes d).
Definition with_quote (v : option QuoteToken) (d : MarkupData) : MarkupData :=
  mkData (name d) (ref_data d) (version d) (encoding d) (standalone d) (element_name d) v (attr_name d) (attributes d).
Definition with_attr_name (v : option Name) (d : MarkupData) : MarkupData :=
  mkData (name d) (ref_data d) (version d) (encoding d) (standalone d) (element_name d) (quote d) v (attributes d).
Definition with_attributes (v : list AttributeData) (d : MarkupData) : MarkupData :=
  mkData (name d) (ref_data d) (version d) (encoding d) (standalone d) (element_name d) (quote d) (attr_name d) v.

(** ** A state and panic monad for [&mut self] methods *)

(** A computation either returns or panics ([unwrap] of [None],
    [unreachable!], an out-of-boundary string slice); the panic records the
    source expression that panicked. *)
Inductive res (A : Type) := Ok (a : A) | Panic (what : string).
Arguments Ok {A} a.
Arguments Panic {A} what.

Definition M (A : Type) := PullParser -> res (A * PullParser).

Definition ret {A} (a : A) : M A := fun p => Ok (a, p).

Definition bind {A B} (m : M A) (k : A -> M B) : M B :=
  fun p => match m p with Ok (a, p') => k a p' | Panic w => Panic w end.

Definition panic {A} (what : string) : M A := fun _ => Panic what.

Definition gets {A} (f : PullParser -> A) : M A := fun p => Ok (f p, p).

Definition modify (f : PullParser -> PullParser) : M unit := fun p => Ok (tt, f p).

Notation "x <- m ;; k" := (bind m (fun x => k)) (at level 61, m at next level, right associativity).
Notation "m ;;; k" := (bind m (fun _ => k)) (at level 61, right associativity).

(** ** Helpers of [PullParser] *)

(** [self.error(msg)]: an [Error] event (the lexer position the source
    attaches to it is not modelled). *)
Definition error (msg : rstring) : XmlEvent := events.Error msg.

Definition depth (p : PullParser) : nat := List.length (est p).

Definition buf_has_data (p : PullParser) : bool := utf8_len (buf p) >? 0.

Definition take_buf : M rstring := fun p => Ok (buf p, set_buf [] p).

Definition append_char_continue (c : rchar) : M (option XmlEvent) :=
  modify (fun p => set_buf (buf p ++ [c]) p) ;;; ret None.

Definition append_str_continue (s : rstring) : M (option XmlEvent) :=
  modify (fun p => set_buf (buf p ++ s) p) ;;; ret None.

Definition into_state (s : State) (ev : option XmlEvent) : M (option XmlEvent) :=
  modify (set_st s) ;;; ret ev.

Definition into_state_continue (s : State) : M (option XmlEvent) := into_state s None.

Definition into_state_emit (s : State) (ev : XmlEvent) : M (option XmlEvent) :=
  into_state s (Some ev).

Definition modify_data (f : MarkupData -> MarkupData) : M unit :=
  modify (fun p => set_data (f (data p)) p).

(** The [take_*] methods of [MarkupData]: [mem::replace] with the default. *)
Definition take_data {A} (get : MarkupData -> A) (reset : MarkupData -> MarkupData) : M A :=
  fun p => Ok (get (data p), set_data (reset (data p)) p).

Definition take_name := take_data name (with_name []).
Definition take_ref_data := take_data ref_data (with_ref_data []).
Definition take_version := take_data version (with_version None).
Definition take_encoding := take_data encoding (with_encoding None).
Definition take_standalone := take_data standalone (with_standalone None).
Definition take_element_name := take_data element_name (with_element_name None).
Definition take_attr_name := take_data attr_name (with_attr_name None).
Definition take_attributes := take_data attributes (with_attributes []).

Definition disable_errors : M unit := modify (set_lexer (mkLexer false)).
Definition enable_errors : M unit := modify (set_lexer (mkLexer true)).

Inductive QualifiedNameTarget := AttributeNameTarget | OpeningTagNameTarget | ClosingTagNameTarget.

(** [read_qualified_name] *)
Definition read_qualified_name (t : Token) (target : QualifiedNameTarget)
    (on_name : Token -> Name -> M (option XmlEvent)) : M (option XmlEvent) :=
  b <- gets buf ;;
  (if utf8_len b <=? 1 then modify (set_read_prefix_separator false) else ret tt) ;;;
  let invoke_callback (t : Token) : M (option XmlEvent) :=
    nm <- take_buf ;;
    match parse_name nm with
    | Some n => on_name t n
    | None => ret (Some (error (rs "Qualified name is invalid: " ++ nm)))
    end in
  let unexpected := ret (Some (error (rs "Unexpected token inside qualified name: " ++ token_to_string t))) in
  p <- gets id ;;
  match t with
  | Character c =>
      if (c =? 58) && buf_has_data p && negb (read_prefix_separator p) then
        modify (fun p => set_read_prefix_separator true (set_buf (buf p ++ [58]) p)) ;;; ret None
      else if negb (c =? 58) && (negb (buf_has_data p) && is_name_start_char c
                                 || buf_has_data p && is_name_char c) then
        append_char_continue c
      else unexpected
  | EqualsSign =>
      match target with AttributeNameTarget => invoke_callback t | _ => unexpected end
  | EmptyTagEnd =>
      match target with OpeningTagNameTarget => invoke_callback t | _ => unexpected end
  | TagEnd =>
      match target with
      | OpeningTagNameTarget | ClosingTagNameTarget => invoke_callback t
      | AttributeNameTarget => unexpected
      end
  | Whitespace _ => invoke_callback t
  | _ => unexpected
  end.

(** [read_attribute_value] *)
Definition read_attribute_value (t : Token) (on_value : rstring -> M (option XmlEvent))
    : M (option XmlEvent) :=
  q <- gets (fun p => quote (data p)) ;;
  let quote_arm (tq : QuoteToken) : M (option XmlEvent) :=
    match q with
    | None => modify_data (with_quote (Some tq)) ;;; ret None
    | Some q =>
        if Token_eqb (as_token q) t then
          modify_data (with_quote None) ;;;
          value <- take_buf ;;
          on_value value
        else append_str_continue (token_to_string t)
    end in
  match t with
  | Whitespace _ =>
      match q with None => ret None | Some _ => append_str_continue (token_to_string t) end
  | DoubleQuote => quote_arm DoubleQuoteToken
  | SingleQuote => quote_arm SingleQuoteToken
  | ReferenceStart =>
      s <- gets st ;;
      into_state_continue (InsideReference s)
  | OpeningTagStart => ret (Some (error (rs "Unexpected token inside attribute value: <")))
  | _ => append_str_continue (token_to_string t)
  end.

Definition is_ws_token (t : Token) : bool :=
  match t with Whitespace _ => true | _ => false end.

(** [trim_chars(is_whitespace_char)] *)
Definition trim_ws (s : rstring) : rstring :=
  let fix drop_ws (s : rstring) :=
    match s with c :: s' => if is_whitespace_char c then drop_ws s' else s | [] => [] end in
  rev (drop_ws (rev (drop_ws s))).

(** The flush of the character buffer on a markup token ([outside_tag],
    lines 488-500): the event built from the buffer. *)
Definition flush_buffer : M (option XmlEvent) :=
  p <- gets id ;;
  if buf_has_data p then
    b <- take_buf ;;
    ret (if inside_whitespace p && trim_whitespace (config p) then None
         else if inside_whitespace p && negb (whitespace_to_characters (config p)) then
           Some (events.Whitespace b)
         else if trim_whitespace (config p) then Some (events.Characters (trim_ws b))
         else Some (events.Characters b))
  else ret None.

Definition DEFAULT_VERSION := Version10.
Definition DEFAULT_ENCODING := rs "UTF-8".
Definition DEFAULT_STANDALONE : option bool := None.

(** The last arm of [outside_tag] (lines 485-546): a markup token. *)
Definition outside_tag_markup (t : Token) : M (option XmlEvent) :=
  next_event <- flush_buffer ;;
  modify (set_inside_whitespace true) ;;;
  p <- gets id ;;
  match t with
  | ProcessingInstructionStart =>
      into_state (InsideProcessingInstruction PIInsideName) next_event
  | DoctypeStart =>
      if negb (encountered_element p) then
        disable_errors ;;; into_state InsideDoctype next_event
      else ret (Some (error (rs "Unexpected token: " ++ token_to_string t)))
  | OpeningTagStart =>
      next_event <- (if negb (parsed_declaration p) then
                       modify (set_parsed_declaration true) ;;;
                       ret (Some (events.StartDocument DEFAULT_VERSION DEFAULT_ENCODING
                                                       DEFAULT_STANDALONE))
                     else ret next_event) ;;
      modify (set_encountered_element true) ;;;
      modify (fun p => set_nst (nst_push_empty (nst p)) p) ;;;
      into_state (InsideOpeningTag InsideName) next_event
  | ClosingTagStart =>
      if (0 <? depth p)%nat then into_state (InsideClosingTag CTInsideName) next_event
      else ret (Some (error (rs "Unexpected token: " ++ token_to_string t)))
  | CommentStart => disable_errors ;;; into_state InsideComment next_event
  | CDataStart => disable_errors ;;; into_state InsideCData next_event
  | _ => ret (Some (error (rs "Unexpected token: " ++ token_to_string t)))
  end.

(** [outside_tag] *)
Definition outside_tag (t : Token) : M (option XmlEvent) :=
  p <- gets id ;;
  let at_top := Nat.eqb (depth p) 0 in
  match t with
  | ReferenceStart => into_state_continue (InsideReference OutsideTag)
  | _ =>
    if is_ws_token t && at_top then ret None
    else if contains_char_data t && at_top then
      ret (Some (error (rs "Unexpected characters outside the root element: " ++ token_to_string t)))
    else match t with
    | Whitespace c => append_char_continue c
    | _ =>
      if contains_char_data t then
        modify (set_inside_whitespace false) ;;; append_str_continue (token_to_string t)
      else match t with
      | ReferenceEnd =>
          modify (set_inside_whitespace false) ;;; append_str_continue (rs ";")
      | CommentStart =>
          if coalesce_characters (config p) && ignore_comments (config p) then
            disable_errors ;;; into_state_continue InsideComment
          else outside_tag_markup t
      | CDataStart =>
          if coalesce_characters (config p) && cdata_to_characters (config p) then
            disable_errors ;;; into_state_continue InsideCData
          else outside_tag_markup t
      | _ => outside_tag_markup t
      end
    end
  end.

(** [inside_doctype] *)
Definition inside_doctype (t : Token) : M (option XmlEvent) :=
  match t with
  | TagEnd => enable_errors ;;; into_state_continue OutsideTag
  | _ => ret None
  end.

(** The eight capitalisations of [xml] listed in [inside_processing_instruction]. *)
Definition xml_like : list rstring :=
  map rs ["xml"; "xmL"; "xMl"; "xML"; "Xml"; "XmL"; "XMl"; "XML"]%string.

Definition is_xml_like (s : rstring) : bool := existsb (streqb s) xml_like.

(** [inside_processing_instruction] *)
Definition inside_processing_instruction (t : Token) (s : ProcessingInstructionSubstate)
    : M (option XmlEvent) :=
  match s with
  | PIInsideName =>
      p <- gets id ;;
      let unexpected := ret (Some (error (rs "Unexpected token: <?" ++ buf p ++ token_to_string t))) in
      match t with
      | Character c =>
          if negb (buf_has_data p) && is_name_start_char c || buf_has_data p && is_name_char c
          then append_char_continue c
          else unexpected
      | ProcessingInstructionEnd =>
          nm <- take_buf ;;
          if streqb nm [] then
            ret (Some (error (rs "Encountered processing instruction without name")))
          else if is_xml_like nm then
            ret (Some (error (rs "Invalid processing instruction: <?" ++ nm)))
          else into_state_emit OutsideTag (events.ProcessingInstruction nm None)
      | Whitespace _ =>
          nm <- take_buf ;;
          if streqb nm (rs "xml") && negb (encountered_element p) && negb (parsed_declaration p) then
            into_state_continue (InsideDeclaration BeforeVersion)
          else if is_xml_like nm && (encountered_element p || parsed_declaration p) then
            ret (Some (error (rs "Invalid processing instruction: <?" ++ nm)))
          else
            disable_errors ;;;
            modify_data (with_name nm) ;;;
            into_state_continue (InsideProcessingInstruction PIInsideData)
      | _ => unexpected
      end
  | PIInsideData =>
      match t with
      | ProcessingInstructionEnd =>
          enable_errors ;;;
          nm <- take_name ;;
          d <- take_buf ;;
          into_state_emit OutsideTag (events.ProcessingInstruction nm (Some d))
      | _ => append_str_continue (token_to_string t)
      end
  end.

(** [emit_start_document], local to [inside_declaration]. *)
Definition emit_start_document : M (option XmlEvent) :=
  modify (set_parsed_declaration true) ;;;
  v <- take_version ;;
  e <- take_encoding ;;
  sa <- take_standalone ;;
  into_state_emit OutsideTag
    (events.StartDocument (match v with Some v => v | None => DEFAULT_VERSION end)
                          (match e with Some e => e | None => DEFAULT_ENCODING end) sa).

(** [inside_declaration] *)
Definition inside_declaration (t : Token) (s : DeclarationSubstate) : M (option XmlEvent) :=
  let unexpected_msg (m : rstring) :=
    Some (error (rs "Unexpected token inside XML declaration: " ++ m)) in
  let unexpected_token := ret (unexpected_msg (token_to_string t)) in
  let pseudo_attribute (expected : rstring) (on_eq on_ws : DeclarationSubstate) :=
    read_qualified_name t AttributeNameTarget (fun token n =>
      if streqb (local_name n) expected && match namespace n with None => true | _ => false end
      then into_state_continue (InsideDeclaration
                                  (if Token_eqb token EqualsSign then on_eq else on_ws))
      else ret (unexpected_msg (show_name n))) in
  match s with
  | BeforeVersion =>
      match t with
      | Whitespace _ => ret None
      | Character 118 => into_state_continue (InsideDeclaration InsideVersion)
      | _ => unexpected_token
      end
  | InsideVersion => pseudo_attribute (rs "ersion") InsideVersionValue AfterVersion
  | AfterVersion =>
      match t with
      | Whitespace _ => ret None
      | EqualsSign => into_state_continue (InsideDeclaration InsideVersionValue)
      | _ => unexpected_token
      end
  | InsideVersionValue =>
      read_attribute_value t (fun value =>
        let v := if streqb value (rs "1.0") then Some Version10
                 else if streqb value (rs "1.1") then Some Version11 else None in
        modify_data (with_version v) ;;;
        match v with
        | Some _ => into_state_continue (InsideDeclaration AfterVersionValue)
        | None => ret (Some (error (rs "Unexpected XML version value: " ++ value)))
        end)
  | AfterVersionValue =>
      match t with
      | Whitespace _ => ret None
      | Character 101 => into_state_continue (InsideDeclaration InsideEncoding)
      | Character 115 => into_state_continue (InsideDeclaration InsideStandaloneDecl)
      | ProcessingInstructionEnd => emit_start_document
      | _ => unexpected_token
      end
  | InsideEncoding => pseudo_attribute (rs "ncoding") InsideEncodingValue AfterEncoding
  | AfterEncoding =>
      match t with
      | Whitespace _ => ret None
      | EqualsSign => into_state_continue (InsideDeclaration InsideEncodingValue)
      | _ => unexpected_token
      end
  | InsideEncodingValue =>
      read_attribute_value t (fun value =>
        modify_data (with_encoding (Some value)) ;;;
        into_state_continue (InsideDeclaration BeforeStandaloneDecl))
  | BeforeStandaloneDecl =>
      match t with
      | Whitespace _ => ret None
      | Character 115 => into_state_continue (InsideDeclaration InsideStandaloneDecl)
      | ProcessingInstructionEnd => emit_start_document
      | _ => unexpected_token
      end
  | InsideStandaloneDecl =>
      pseudo_attribute (rs "tandalone") InsideStandaloneDeclValue AfterStandaloneDecl
  | AfterStandaloneDecl =>
      match t with
      | Whitespace _ => ret None
      | EqualsSign => into_state_continue (InsideDeclaration InsideStandaloneDeclValue)
      | _ => unexpected_token
      end
  | InsideStandaloneDeclValue =>
      read_attribute_value t (fun value =>
        let sa := if streqb value (rs "yes") then Some true
                  else if streqb value (rs "no") then Some false else None in
        match sa with
        | Some _ =>
            modify_data (with_standalone sa) ;;;
            into_state_continue (InsideDeclaration AfterStandaloneDeclValue)
        | None => ret (Some (error (rs "Invalid standalone declaration value: " ++ value)))
        end)
  | AfterStandaloneDeclValue =>
      match t with
      | Whitespace _ => ret None
      | ProcessingInstructionEnd => emit_start_document
      | _ => unexpected_token
      end
  end.

(** The namespace a prefix resolves to: [Some("")] means no namespace. *)
Definition resolved (u : rstring) : option rstring :=
  match u with [] => None | _ => Some u end.

Definition with_namespace (ns : option rstring) (n : Name) : Name :=
  mkName (prefix n) (local_name n) ns.
Arguments with_namespace : simpl never.

(** The loop over the accumulated attributes in [emit_start_element]: the
    first attribute with an unbound prefix, or all of them resolved. *)
Fixpoint resolve_attributes (n : NamespaceStack) (attrs : list AttributeData)
    : Name + list AttributeData :=
  match attrs with
  | [] => inr []
  | (an, v) :: rest =>
      match nst_get n (prefix an) with
      | None => inl an
      | Some u =>
          match resolve_attributes n rest with
          | inl bad => inl bad
          | inr rest' => inr ((with_namespace (resolved u) an, v) :: rest')
          end
      end
  end.

(** [emit_start_element]; the element stack [est] is kept innermost first,
    so [push] is a cons. *)
Definition emit_start_element (emit_end_element : bool) : M (option XmlEvent) :=
  en <- take_element_name ;;
  match en with
  | None => panic "self.data.take_element_name().unwrap()"
  | Some nm =>
      attrs <- take_attributes ;;
      ns <- gets nst ;;
      match nst_get ns (prefix nm) with
      | None => ret (Some (error (rs "Element " ++ show_name nm ++ rs " prefix is unbound")))
      | Some u =>
          let nm := with_namespace (resolved u) nm in
          match resolve_attributes ns attrs with
          | inl bad => ret (Some (error (rs "Attribute " ++ show_name bad ++ rs " prefix is unbound")))
          | inr attrs =>
              (if emit_end_element then
                 modify (set_pop_namespace true) ;;;
                 modify (set_next_event (Some (events.EndElement nm)))
               else modify (fun p => set_est (nm :: est p) p)) ;;;
              ns' <- gets nst ;;
              into_state_emit OutsideTag (events.StartElement nm attrs (nst_squash ns'))
          end
      end
  end.

Definition reserved_prefix (pr : option rstring) : bool :=
  match pr with
  | Some pr => streqb pr NS_XML_PREFIX || streqb pr NS_XMLNS_PREFIX
  | None => false
  end.

(** The callback of [read_attribute_value] in [InsideAttributeValue]:
    classification of a completed attribute (lines 859-899). *)
Definition on_attribute_value (value : rstring) : M (option XmlEvent) :=
  an <- take_attr_name ;;
  match an with
  | None => panic "this.data.take_attr_name().unwrap()"
  | Some nm =>
      let plain :=
        modify_data (fun d => with_attributes (attributes d ++ [(nm, value)]) d) ;;;
        into_state_continue (InsideOpeningTag InsideTag) in
      match prefix nm with
      | Some pr =>
          if streqb pr NS_XMLNS_PREFIX then
            let ln := local_name nm in
            if streqb ln NS_XMLNS_PREFIX then
              ret (Some (error (rs "Cannot redefine 'xmlns' prefix")))
            else if streqb ln NS_XML_PREFIX && negb (streqb value NS_XML_URI) then
              ret (Some (error (rs "'xml' prefix cannot be rebound to another value")))
            else if streqb value [] then
              ret (Some (error (rs "Cannot undefine a prefix: " ++ ln)))
            else
              modify (fun p => set_nst (nst_put (nst p) (Some ln) value) p) ;;;
              into_state_continue (InsideOpeningTag InsideTag)
          else plain
      | None =>
          if streqb (local_name nm) NS_XMLNS_PREFIX then
            if streqb value NS_XMLNS_PREFIX || streqb value NS_XML_PREFIX then
              ret (Some (error (rs "Namespace '" ++ value ++ rs "' cannot be default")))
            else
              modify (fun p => set_nst (nst_put (nst p) None value) p) ;;;
              into_state_continue (InsideOpeningTag InsideTag)
          else plain
      end
  end.

(** [inside_opening_tag] *)
Definition inside_opening_tag (t : Token) (s : OpeningTagSubstate) : M (option XmlEvent) :=
  let unexpected_token :=
    ret (Some (error (rs "Unexpected token inside opening tag: " ++ token_to_string t))) in
  match s with
  | InsideName =>
      read_qualified_name t OpeningTagNameTarget (fun token nm =>
        if reserved_prefix (prefix nm) then
          ret (Some (error (rs "'" ++ show_prefix (prefix nm) ++ rs "' cannot be an element name prefix")))
        else
          modify_data (with_element_name (Some nm)) ;;;
          match token with
          | TagEnd => emit_start_element false
          | EmptyTagEnd => emit_start_element true
          | Whitespace _ => into_state_continue (InsideOpeningTag InsideTag)
          | _ => panic "unreachable!()"
          end)
  | InsideTag =>
      match t with
      | Whitespace _ => ret None
      | Character c =>
          if is_name_start_char c then
            modify (fun p => set_buf (buf p ++ [c]) p) ;;;
            into_state_continue (InsideOpeningTag InsideAttributeName)
          else unexpected_token
      | TagEnd => emit_start_element false
      | EmptyTagEnd => emit_start_element true
      | _ => unexpected_token
      end
  | InsideAttributeName =>
      read_qualified_name t AttributeNameTarget (fun token nm =>
        modify_data (with_attr_name (Some nm)) ;;;
        match token with
        | Whitespace _ => into_state_continue (InsideOpeningTag AfterAttributeName)
        | EqualsSign => into_state_continue (InsideOpeningTag InsideAttributeValue)
        | _ => panic "unreachable!()"
        end)
  | AfterAttributeName =>
      match t with
      | Whitespace _ => ret None
      | EqualsSign => into_state_continue (InsideOpeningTag InsideAttributeValue)
      | _ => unexpected_token
      end
  | InsideAttributeValue => read_attribute_value t on_attribute_value
  end.

(** [emit_end_element] *)
Definition emit_end_element : M (option XmlEvent) :=
  en <- take_element_name ;;
  match en with
  | None => panic "self.data.take_element_name().unwrap()"
  | Some nm =>
      ns <- gets nst ;;
      match nst_get ns (prefix nm) with
      | None => ret (Some (error (rs "Element " ++ show_name nm ++ rs " prefix is unbound")))
      | Some u =>
          let nm := with_namespace (resolved u) nm in
          e <- gets est ;;
          match e with
          | [] => panic "self.est.pop().unwrap()"
          | op_name :: rest =>
              modify (set_est rest) ;;;
              if Name_eqb nm op_name then
                modify (set_pop_namespace true) ;;;
                into_state_emit OutsideTag (events.EndElement nm)
              else ret (Some (error (rs "Unexpected closing tag: " ++ show_name nm
                                     ++ rs ", expected " ++ show_name op_name)))
          end
      end
  end.

(** [inside_closing_tag_name] *)
Definition inside_closing_tag_name (t : Token) (s : ClosingTagSubstate) : M (option XmlEvent) :=
  match s with
  | CTInsideName =>
      read_qualified_name t ClosingTagNameTarget (fun token nm =>
        if reserved_prefix (prefix nm) then
          ret (Some (error (rs "'" ++ show_prefix (prefix nm) ++ rs "' cannot be an element name prefix")))
        else
          modify_data (with_element_name (Some nm)) ;;;
          match token with
          | Whitespace _ => into_state_continue (InsideClosingTag CTAfterName)
          | TagEnd => emit_end_element
          | _ => ret (Some (error (rs "Unexpected token inside closing tag: " ++ token_to_string token)))
          end)
  | CTAfterName =>
      match t with
      | Whitespace _ => ret None
      | TagEnd => emit_end_element
      | _ => ret (Some (error (rs "Unexpected token inside closing tag: " ++ token_to_string t)))
      end
  end.

(** [inside_comment] *)
Definition inside_comment (t : Token) : M (option XmlEvent) :=
  p <- gets id ;;
  match t with
  | Chunk s =>
      if streqb s (rs "--") then ret (Some (error (rs "Unexpected token inside a comment: --")))
      else if ignore_comments (config p) then ret None
      else append_str_continue (token_to_string t)
  | CommentEnd =>
      if ignore_comments (config p) then enable_errors ;;; into_state_continue OutsideTag
      else
        enable_errors ;;;
        d <- take_buf ;;
        into_state_emit OutsideTag (events.Comment d)
  | _ => if ignore_comments (config p) then ret None else append_str_continue (token_to_string t)
  end.

(** [inside_cdata] *)
Definition inside_cdata (t : Token) : M (option XmlEvent) :=
  match t with
  | CDataEnd =>
      enable_errors ;;;
      c2c <- gets (fun p => cdata_to_characters (config p)) ;;
      event <- (if c2c then ret None else d <- take_buf ;; ret (Some (events.CData d))) ;;
      into_state OutsideTag event
  | Whitespace _ => append_str_continue (token_to_string t)
  | _ => modify (set_inside_whitespace false) ;;; append_str_continue (token_to_string t)
  end.

(** [char::to_digit(radix)] *)
Definition to_digit (c : rchar) (radix : Z) : option Z :=
  let d := if in_range 48 57 c then Some (c - 48)
           else if in_range 97 122 c then Some (c - 97 + 10)
           else if in_range 65 90 c then Some (c - 65 + 10) else None in
  match d with Some v => if v <? radix then Some v else None | None => None end.

Fixpoint digits_u32 (acc radix : Z) (s : rstring) : option Z :=
  match s with
  | [] => Some acc
  | c :: s' =>
      match to_digit c radix with
      | None => None
      | Some x =>
          let r := acc * radix in
          if 2 ^ 32 <=? r then None
          else let r := r + x in
               if 2 ^ 32 <=? r then None else digits_u32 r radix s'
      end
  end.

(** [from_str_radix::<u32>]: the empty string is rejected, every char must
    be a digit of the radix, overflow is rejected. *)
Definition from_str_radix (s : rstring) (radix : Z) : option Z :=
  match s with [] => None | _ => digits_u32 0 radix s end.

(** [char::from_u32]: a Unicode scalar value. *)
Definition from_u32 (i : Z) : option rchar :=
  if (1114111 <? i) || ((55296 <=? i) && (i <=? 57343)) then None else Some i.

Definition parse_char_ref (num_str : rstring) (radix : Z) : option rchar :=
  match from_str_radix num_str radix with Some i => from_u32 i | None => None end.

Definition slice_or_panic (s : rstring) (a b : Z) : M rstring :=
  match str_slice s a b with
  | Some r => ret r
  | None => panic "byte index is not a char boundary"
  end.

(** The decoding of a complete reference in [inside_reference]
    (lines 1006-1038): [inr c] for [Ok(c)], [inl e] for [Err(e)]. *)
Definition decode_reference (nm : rstring) : M (XmlEvent + rchar) :=
  let name_len := utf8_len nm in
  let decimal :=
    if (1 <? name_len) && match nm with 35 :: _ => true | _ => false end then
      num_str <- slice_or_panic nm 1 name_len ;;
      if streqb num_str (rs "0") then
        ret (inl (error (rs "Null character entity is not allowed")))
      else match parse_char_ref num_str 10 with
           | Some c => ret (inr c)
           | None => ret (inl (error (rs "Invalid decimal character number in an entity: " ++ nm)))
           end
    else ret (inl (error (rs "Unexpected entity: " ++ nm))) in
  if streqb nm (rs "lt") then ret (inr 60)
  else if streqb nm (rs "gt") then ret (inr 62)
  else if streqb nm (rs "amp") then ret (inr 38)
  else if streqb nm (rs "apos") then ret (inr 39)
  else if streqb nm (rs "quot") then ret (inr 34)
  else if streqb nm [] then ret (inl (error (rs "Encountered empty entity")))
  else if 2 <? name_len then
    pre <- slice_or_panic nm 0 2 ;;
    if streqb pre (rs "#x") then
      num_str <- slice_or_panic nm 2 name_len ;;
      if streqb num_str (rs "0") then
        ret (inl (error (rs "Null character entity is not allowed")))
      else match parse_char_ref num_str 16 with
           | Some c => ret (inr c)
           | None => ret (inl (error (rs "Invalid hexadecimal character number in an entity: " ++ nm)))
           end
    else decimal
  else decimal.

(** [inside_reference] *)
Definition inside_reference (t : Token) (prev_st : State) : M (option XmlEvent) :=
  rd <- gets (fun p => ref_data (data p)) ;;
  let unexpected := ret (Some (error (rs "Unexpected token inside an entity: " ++ token_to_string t))) in
  match t with
  | Character c =>
      if negb (streqb rd []) && is_name_char c
         || streqb rd [] && (is_name_start_char c || (c =? 35)) then
        modify_data (with_ref_data (rd ++ [c])) ;;; ret None
      else unexpected
  | ReferenceEnd =>
      nm <- take_ref_data ;;
      c <- decode_reference nm ;;
      match c with
      | inr c =>
          modify (fun p => set_buf (buf p ++ [c]) p) ;;;
          into_state_continue prev_st
      | inl e => ret (Some e)
      end
  | _ => unexpected
  end.

(** [dispatch_token] *)
Definition dispatch_token (t : Token) : M (option XmlEvent) :=
  s <- gets st ;;
  match s with
  | OutsideTag => outside_tag t
  | InsideProcessingInstruction s => inside_processing_instruction t s
  | InsideDeclaration s => inside_declaration t s
  | InsideDoctype => inside_doctype t
  | InsideOpeningTag s => inside_opening_tag t s
  | InsideClosingTag s => inside_closing_tag_name t s
  | InsideComment => inside_comment t
  | InsideCData => inside_cdata t
  | InsideReference s => inside_reference t s
  end.

Definition is_terminal (ev : XmlEvent) : bool :=
  match ev with events.EndDocument | events.Error _ => true | _ => false end.

(** The end-of-stream decision of [next] (lines 291-304). *)
Definition end_of_stream_event (p : PullParser) : XmlEvent :=
  if Nat.eqb (depth p) 0 then
    if encountered_element p && match st p with OutsideTag => true | _ => false end then
      events.EndDocument
    else if negb (encountered_element p) then
      error (rs "Unexpected end of stream: no root element found")
    else error (rs "Unexpected end of stream")
  else error (rs "Unexpected end of stream: still inside the root element").

(** The token loop of [next] ([for_each!] over [lexer.next_token]); the
    lexer's output is the list of its remaining results. *)
Fixpoint next_loop (input : list LexResult) (p : PullParser)
    : res (XmlEvent * PullParser * list LexResult) :=
  match input with
  | [] =>
      let ev := end_of_stream_event p in
      Ok (ev, set_finish_event (Some ev) p, [])
  | LexOk t :: rest =>
      match dispatch_token t p with
      | Panic w => Panic w
      | Ok (Some ev, p') =>
          Ok (ev, if is_terminal ev then set_finish_event (Some ev) p' else p', rest)
      | Ok (None, p') => next_loop rest p'
      end
  | LexErr e :: rest =>
      let ev := events.Error e in
      Ok (ev, set_finish_event (Some ev) p, rest)
  end.

(** [PullParser::next] *)
Definition next (p : PullParser) (input : list LexResult)
    : res (XmlEvent * PullParser * list LexResult) :=
  match finish_event p with
  | Some ev => Ok (ev, p, input)
  | None =>
      match next_event p with
      | Some ev => Ok (ev, set_next_event None p, input)
      | None =>
          let p := if pop_namespace p then set_nst (nst_pop (nst p)) (set_pop_namespace false p)
                   else p in
          next_loop input p
      end
  end.

(** ** A client of the parser *)

(** Repeated calls of [next] on the same input, collecting the events up to
    and including the first terminal one ([fuel] bounds the number of calls). *)
Fixpoint pull_events (fuel : nat) (p : PullParser) (input : list LexResult) : list XmlEvent :=
  match fuel with
  | O => []
  | S f =>
      match next p input with
      | Ok (ev, p', input') => ev :: (if is_terminal ev then [] else pull_events f p' input')
      | Panic _ => []
      end
  end.

(** Tokens of the lexer for a run of plain name characters. *)
Definition chars (s : string) : list LexResult := map (fun c => LexOk (Character c)) (rs s).

Definition toks (l : list Token) : list LexResult := map LexOk l.

(** A configuration with every option off except [ignore_comments] and
    [coalesce_characters]. *)
Definition cfg_plain : ParserConfig := mkConfig false false false true true.

(** Token streams of small documents. *)

(** [<a xmlns="http://www.w3.org/XML/1998/namespace"/>] *)
Definition doc_default_xml_uri : list LexResult :=
  toks [OpeningTagStart] ++ chars "a" ++ toks [Whitespace 32] ++ chars "xmlns"
  ++ toks [EqualsSign; DoubleQuote] ++ map (fun c => LexOk (Character c)) NS_XML_URI
  ++ toks [DoubleQuote; EmptyTagEnd].

(** [<a xmlns="xml"/>] *)
Definition doc_default_xml_prefix : list LexResult :=
  toks [OpeningTagStart] ++ chars "a" ++ toks [Whitespace 32] ++ chars "xmlns"
  ++ toks [EqualsSign; DoubleQuote] ++ chars "xml" ++ toks [DoubleQuote; EmptyTagEnd].

(** [<?XML d?><a/>] *)
Definition doc_upper_xml_pi : list LexResult :=
  toks [ProcessingInstructionStart] ++ chars "XML" ++ toks [Whitespace 32] ++ chars "d"
  ++ toks [ProcessingInstructionEnd; OpeningTagStart] ++ chars "a" ++ toks [EmptyTagEnd].

(** [<a>&lt;&#65;&#x42;</a>] *)
Definition doc_references : list LexResult :=
  toks [OpeningTagStart] ++ chars "a" ++ toks [TagEnd; ReferenceStart] ++ chars "lt"
  ++ toks [ReferenceEnd; ReferenceStart] ++ chars "#65" ++ toks [ReferenceEnd; ReferenceStart]
  ++ chars "#x42" ++ toks [ReferenceEnd; ClosingTagStart] ++ chars "a" ++ toks [TagEnd].

(** [<a/>] *)
Definition doc_empty_a : list LexResult :=
  toks [OpeningTagStart] ++ chars "a" ++ toks [EmptyTagEnd].


Definition start_document_default : XmlEvent :=
  events.StartDocument DEFAULT_VERSION DEFAULT_ENCODING DEFAULT_STANDALONE.

Definition is_start_element (ev : XmlEvent) : nat :=
  match ev with events.StartElement _ _ _ => 1 | _ => 0 end%nat.

Definition is_end_element (ev : XmlEvent) : nat :=
  match ev with events.EndElement _ => 1 | _ => 0 end%nat.

(** The parser states a client can observe between two calls of [next],
    from [PullParser::new] on, for any lexer output at each call, with the
    numbers of [StartElement] and [EndElement] events returned so far. *)
Inductive run : PullParser -> nat -> nat -> Prop :=
| run_new cfg : run (new cfg) 0 0
| run_next p s e input ev p' input' :
    run p s e -> next p input = Ok (ev, p', input') ->
    run p' (s + is_start_element ev) (e + is_end_element ev).

(** The number of events waiting in the lookahead slot. *)
Definition pending (p : PullParser) : nat :=
  match next_event p with Some _ => 1 | None => 0 end%nat.

Definition is_error_event (ev : XmlEvent) : bool :=
  match ev with events.Error _ => true | _ => false end.

(** The message of the panic of [self.est.pop().unwrap()] in
    [emit_end_element]. *)
Definition est_pop_panic : string := "self.est.pop().unwrap()".

(** The element stack is non-empty inside a closing tag, and a reference
    returns to neither a closing tag nor another reference. *)
Definition ct_ok (s : State) (e : list Name) : Prop :=
  match s with
  | InsideClosingTag _ => e <> []
  | InsideReference (InsideClosingTag _) | InsideReference (InsideReference _) => False
  | _ => True
  end.

Definition ct_inv (p : PullParser) : Prop := ct_ok (st p) (est p).

(** What one token does, as seen from the outside: [finish_event] is left
    alone; a token with no event leaves the element stack and the lookahead
    slot alone; an event other than [Error] moves the balance of the element
    stack, the slot and the events; the slot holds nothing or an
    [EndElement]; and the pop of [emit_end_element] does not fail. *)
Definition step_ok (p : PullParser) (o : res (option XmlEvent * PullParser)) : Prop :=
  match o with
  | Ok (r, p') =>
      finish_event p' = finish_event p /\
      (r = None -> est p' = est p /\ next_event p' = None /\ ct_inv p') /\
      (forall x, r = Some x -> is_error_event x = false ->
         (List.length (est p') + pending p' + is_end_element x
          = List.length (est p) + is_start_element x)%nat /\ ct_inv p') /\
      (next_event p' = None \/ exists n, next_event p' = Some (events.EndElement n))
  | Panic w => w <> est_pop_panic
  end.

Definition slot_ok (p : PullParser) : Prop :=
  next_event p = None \/ exists n, next_event p = Some (events.EndElement n).

Definition fin_ok (p : PullParser) : Prop :=
  match finish_event p with None => True | Some ev => is_terminal ev = true end.

(** No [Error] event has been returned. *)
Definition not_failed (p : PullParser) : Prop :=
  forall m, finish_event p <> Some (events.Error m).

(** The invariant of the states reachable by [run]. *)
Definition inv (p : PullParser) (s e : nat) : Prop :=
  slot_ok p /\ fin_ok p /\ (finish_event p = None -> ct_inv p) /\
  (not_failed p -> (List.length (est p) + pending p + e)%nat = s).

(** [n] calls of [next] from [p], counting the [StartElement] and
    [EndElement] events. *)
Fixpoint pull_states (n : nat) (p : PullParser) (s e : nat) (input : list LexResult)
    : option (PullParser * nat * nat * list LexResult) :=
  match n with
  | O => Some (p, s, e, input)
  | S n =>
      match next p input with
      | Ok (ev, p', input') =>
          pull_states n p' (s + is_start_element ev) (e + is_end_element ev) input'
      | Panic _ => None
      end
  end.

Definition state_after (n : nat) (cfg : ParserConfig) (input : list LexResult) : PullParser :=
  match pull_states n (new cfg) 0 0 input with
  | Some (q, _, _, _) => q
  | None => new cfg
  end.

(** Helpers kept folded by [simpl] and [cbn] in the proofs about arbitrary
    states. *)
Arguments streqb : simpl never.
Arguments Token_eqb : simpl never.
Arguments Name_eqb : simpl never.
Arguments token_to_string : simpl never.
Arguments show_name : simpl never.
Arguments show_prefix : simpl never.
Arguments is_name_char : simpl never.
Arguments is_name_start_char : simpl never.
Arguments is_whitespace_char : simpl never.
Arguments utf8_len : simpl never.
Arguments parse_name : simpl never.
Arguments trim_ws : simpl never.
Arguments nst_squash : simpl never.
Arguments nst_put : simpl never.
Arguments is_xml_like : simpl never.
Arguments parse_char_ref : simpl never.
Arguments pending : simpl never.
Arguments step_ok : simpl never.
Arguments ct_inv : simpl never.

(** ** Token runs, as used by the properties of the handlers *)

(** The text of a run of tokens: the markup each was lexed from. *)
Definition token_text (ts : list Token) : rstring := List.concat (map token_to_string ts).

(** Dispatching a run of tokens none of which yields an event: the state
    reached, or [None] when one of them yields an event or panics. *)
Fixpoint silent (ts : list Token) (p : PullParser) : option PullParser :=
  match ts with
  | [] => Some p
  | t :: ts' =>
      match dispatch_token t p with
      | Ok (None, p') => silent ts' p'
      | _ => None
      end
  end.

(** The tokens of a comment body that [inside_comment] accepts without ending
    the comment or reporting [--]. *)
Definition comment_body_ok (t : Token) : bool :=
  match t with CommentEnd => false | Chunk s => negb (streqb s (rs "--")) | _ => true end.

Definition not_token (u t : Token) : bool := negb (Token_eqb t u).

(** The five predefined entities of [inside_reference] and their chars. *)
Definition predefined_entities : list (rstring * rchar) :=
  [(rs "lt", 60); (rs "gt", 62); (rs "amp", 38); (rs "apos", 39); (rs "quot", 34)].

(** Digit chars: [0-9] for a decimal digit, [0-9a-f] for a hexadecimal one. *)
Definition dec_char (d : Z) : rchar := 48 + d.

Definition hex_char (d : Z) : rchar := if d <? 10 then 48 + d else 87 + d.

(** The value of a digit sequence, most significant digit first. *)
Definition digits_value (radix : Z) (ds : list Z) : Z := fold_left (fun a d => a * radix + d) ds 0.

Definition is_ascii (s : rstring) : Prop := Forall (fun c => 0 <= c < 128) s.

(** The tokens [read_attribute_value] appends to a value quoted by [q]: all
    but the closing quote, [&] and [<]. *)
Definition attr_value_ok (q : QuoteToken) (t : Token) : bool :=
  negb (Token_eqb t (as_token q)) && negb (Token_eqb t ReferenceStart)
  && negb (Token_eqb t OpeningTagStart).

(** An attribute name that is neither [xmlns] nor [xmlns:...]: the plain
    attribute arm of [inside_opening_tag]. *)
Definition plain_attr_name (nm : Name) : bool :=
  match prefix nm with
  | Some pr => negb (streqb pr NS_XMLNS_PREFIX)
  | None => negb (streqb (local_name nm) NS_XMLNS_PREFIX)
  end.

(** A parser whose next call of [next] goes straight to the token loop. *)
Definition ready (p : PullParser) : bool :=
  match finish_event p, next_event p with None, None => negb (pop_namespace p) | _, _ => false end.

(** The lexer's tokens for a run of plain chars. *)
Definition tchars (s : string) : list Token := map Character (rs s).

(** The tokens [outside_tag] adds to the text of an element. *)
Definition text_token (t : Token) : bool := contains_char_data t || Token_eqb t ReferenceEnd.

(** An attribute as resolved by [emit_start_element]: same value, prefix
    and local name, and the namespace its prefix is bound to. *)
Definition attr_resolved (n : NamespaceStack) (a a' : AttributeData) : Prop :=
  snd a' = snd a /\ prefix (fst a') = prefix (fst a) /\ local_name (fst a') = local_name (fst a)
  /\ exists u, nst_get n (prefix (fst a)) = Some u /\ namespace (fst a') = resolved u.

Definition prefix_bound (n : NamespaceStack) (a : AttributeData) : Prop :=
  nst_get n (prefix (fst a)) <> None.

(** * Claims *)

(** ** C1 *)

(** C1 (code_bug): the default namespace declaration is checked against the
    prefix strings [xmlns] and [xml], not the namespace URIs: a document whose
    [xmlns] attribute has the [xml] namespace URI as value is accepted and
    binds the default namespace to it, while the value [xml] (not a URI) is
    rejected. *)
Theorem C1_default_namespace_checks_prefixes :
  pull_events 10 (new cfg_plain) doc_default_xml_uri =
    [start_document_default;
     events.StartElement (mkName None (rs "a") (Some NS_XML_URI)) []
                         (nst_squash ([(None, NS_XML_URI)] :: nst_default));
     events.EndElement (mkName None (rs "a") (Some NS_XML_URI));
     events.EndDocument]
  /\ pull_events 10 (new cfg_plain) doc_default_xml_prefix =
    [start_document_default; error (rs "Namespace 'xml' cannot be default")].
Proof. split; vm_compute; reflexivity. Qed.

(** ** C3 *)

(** C3 (code_bug): a processing instruction named [XML] followed by
    whitespace before any element or declaration is not rejected: it is
    reported as an ordinary processing instruction. *)
Theorem C3_upper_xml_pi_accepted_before_document :
  pull_events 10 (new cfg_plain) doc_upper_xml_pi =
    [events.ProcessingInstruction (rs "XML") (Some (rs "d"));
     start_document_default;
     events.StartElement (new_local (rs "a")) [] (nst_squash ([] :: nst_default));
     events.EndElement (new_local (rs "a"));
     events.EndDocument].
Proof. vm_compute; reflexivity. Qed.

(** ** C7 *)

(** C7 (code_bug): the flush decides by the [inside_whitespace] flag, which a
    resolved reference does not clear. In [<a>&lt;&#65;&#x42;</a>] the
    buffer ["<AB"] holds no whitespace, yet under every configuration it is
    handled as an all-whitespace run: dropped with [trim_whitespace] on,
    reported as [Whitespace] with [whitespace_to_characters] off, and as
    untrimmed [Characters] only with [whitespace_to_characters] on. *)
Theorem C7_reference_text_flushed_as_whitespace : forall cfg,
  pull_events 10 (new cfg) doc_references =
    [start_document_default;
     events.StartElement (new_local (rs "a")) [] (nst_squash ([] :: nst_default))]
    ++ (if trim_whitespace cfg then []
        else if whitespace_to_characters cfg then [events.Characters (rs "<AB")]
        else [events.Whitespace (rs "<AB")])
    ++ [events.EndElement (new_local (rs "a")); events.EndDocument].
Proof. intros [[] [] [] [] []]; vm_compute; reflexivity. Qed.

(** ** C2 *)

(** C2 (code_bug): the null-character test compares the digits with the
    string ["0"] only; the references [&#00;] and [&#x00;] are decoded to the
    character U+0000, which is appended to the buffer without an [Error]. *)
Theorem C2_zero_reference_appends_nul : forall p prev,
  ref_data (data p) = rs "#00" \/ ref_data (data p) = rs "#x00" ->
  exists p', inside_reference ReferenceEnd prev p = Ok (None, p')
             /\ buf p' = buf p ++ [0] /\ st p' = prev.
Proof.
  intros p prev [H | H]; unfold inside_reference, bind, gets, take_ref_data, take_data;
    cbn; rewrite H; vm_compute; eexists; repeat split.
Qed.

Lemma C2_witness :
  exists p', inside_reference ReferenceEnd OutsideTag
               (set_data (with_ref_data (rs "#00") empty_data) (new cfg_plain)) = Ok (None, p')
             /\ buf p' = [0] /\ st p' = OutsideTag.
Proof.
  apply (C2_zero_reference_appends_nul
           (set_data (with_ref_data (rs "#00") empty_data) (new cfg_plain)) OutsideTag).
  left; reflexivity.
Defined.

(** ** C6 *)

(** C6: when the lexer reports the end of the stream, the token loop of
    [next] ends with exactly one of four outcomes, stored as the terminal
    event: [EndDocument] at depth 0 after a root element in state
    [OutsideTag]; the "no root element" error when no element was seen; the
    "still inside the root element" error at a positive depth; the generic
    error otherwise.  (A positive depth implies that an element was seen.) *)
Theorem C6_end_of_stream_outcomes : forall q ev q' rest,
  ((0 < depth q)%nat -> encountered_element q = true) ->
  next_loop [] q = Ok (ev, q', rest) ->
  rest = [] /\ finish_event q' = Some ev /\
  (depth q = 0%nat -> encountered_element q = true -> st q = OutsideTag ->
     ev = events.EndDocument) /\
  (encountered_element q = false ->
     ev = error (rs "Unexpected end of stream: no root element found")) /\
  ((0 < depth q)%nat ->
     ev = error (rs "Unexpected end of stream: still inside the root element")) /\
  (depth q = 0%nat -> encountered_element q = true -> st q <> OutsideTag ->
     ev = error (rs "Unexpected end of stream")).
Proof.
  intros q ev q' rest Hdepth Hloop; cbn in Hloop; injection Hloop as <- <- <-.
  unfold end_of_stream_event; repeat split.
  - intros Hd He Hs; rewrite Hd, He, Hs; reflexivity.
  - intros He; destruct (depth q) eqn:Hd; [rewrite He; reflexivity|].
    rewrite Hdepth in He; [discriminate | lia].
  - intros Hd; destruct (depth q); [lia | reflexivity].
  - intros Hd He Hs; rewrite Hd, He; destruct (st q); [contradiction | reflexivity ..].
Qed.

Lemma C6_witness : exists ev q',
  next_loop [] (new cfg_plain) = Ok (ev, q', []) /\
  [] = @nil LexResult /\ finish_event q' = Some ev /\
  (depth (new cfg_plain) = 0%nat -> encountered_element (new cfg_plain) = true ->
     st (new cfg_plain) = OutsideTag -> ev = events.EndDocument) /\
  (encountered_element (new cfg_plain) = false ->
     ev = error (rs "Unexpected end of stream: no root element found")) /\
  ((0 < depth (new cfg_plain))%nat ->
     ev = error (rs "Unexpected end of stream: still inside the root element")) /\
  (depth (new cfg_plain) = 0%nat -> encountered_element (new cfg_plain) = true ->
     st (new cfg_plain) <> OutsideTag -> ev = error (rs "Unexpected end of stream")).
Proof.
  do 2 eexists; split; [reflexivity|].
  apply (C6_end_of_stream_outcomes (new cfg_plain)); [intros H; inversion H | reflexivity].
Defined.

(** ** C9 *)

Ltac unfold_monad :=
  unfold bind, gets, modify, ret, panic, into_state_emit, into_state_continue, into_state,
         modify_data, take_data, take_buf in *.

(** C9: a closing tag's name completed by [TagEnd] (directly, or after
    whitespace) resolves the name's prefix (unbound: [Error]) and pops the
    top [op] of the element stack; a resolved name different from [op] gives
    the error "Unexpected closing tag: <name>, expected <op>", an equal one
    sets the deferred namespace pop, moves to [OutsideTag] and is emitted as
    [EndElement]. *)
Theorem C9_closing_tag_end : forall p nm op rest,
  est p = op :: rest ->
  (st p = InsideClosingTag CTInsideName /\ parse_name (buf p) = Some nm
     /\ reserved_prefix (prefix nm) = false
   \/ st p = InsideClosingTag CTAfterName /\ element_name (data p) = Some nm) ->
  exists ev p', dispatch_token TagEnd p = Ok (ev, p') /\
  match nst_get (nst p) (prefix nm) with
  | None =>
      ev = Some (error (rs "Element " ++ show_name nm ++ rs " prefix is unbound"))
      /\ est p' = est p
  | Some u =>
      let cn := with_namespace (resolved u) nm in
      est p' = rest /\
      (cn = op -> ev = Some (events.EndElement cn) /\ pop_namespace p' = true
                  /\ st p' = OutsideTag) /\
      (cn <> op -> ev = Some (error (rs "Unexpected closing tag: " ++ show_name cn
                                     ++ rs ", expected " ++ show_name op)))
  end.
Proof.
  intros p nm op rest Hest [[Hst [Hname Hres]] | [Hst Hname]];
    unfold dispatch_token; unfold_monad; rewrite Hst; cbn.
  - destruct (utf8_len (buf p) <=? 1); cbn; rewrite Hname, Hres; cbn;
      unfold emit_end_element, Name_eqb; unfold_monad; cbn;
      destruct (nst_get (nst p) (prefix nm)) as [u|]; cbn; rewrite ?Hest; cbn;
      try (do 2 eexists; split; [reflexivity | auto]);
      destruct (Name_eq_dec (with_namespace (resolved u) nm) op) as [E|E]; cbn;
      (do 2 eexists; split; [reflexivity|]); cbn; repeat split; auto; try contradiction.
  - unfold emit_end_element, Name_eqb; unfold_monad; cbn; rewrite Hname; cbn;
      destruct (nst_get (nst p) (prefix nm)) as [u|]; cbn; rewrite ?Hest; cbn;
      try (do 2 eexists; split; [reflexivity | auto]);
      destruct (Name_eq_dec (with_namespace (resolved u) nm) op) as [E|E]; cbn;
      (do 2 eexists; split; [reflexivity|]); cbn; repeat split; auto; try contradiction.
Qed.

Lemma C9_witness : exists ev p',
  dispatch_token TagEnd
    (set_st (InsideClosingTag CTInsideName)
       (set_buf (rs "a") (set_est [new_local (rs "a")] (new cfg_plain)))) = Ok (ev, p') /\
  ev = Some (events.EndElement (new_local (rs "a"))) /\ est p' = [] /\ st p' = OutsideTag.
Proof.
  destruct (C9_closing_tag_end
              (set_st (InsideClosingTag CTInsideName)
                 (set_buf (rs "a") (set_est [new_local (rs "a")] (new cfg_plain))))
              (new_local (rs "a")) (new_local (rs "a")) [])
    as (ev & p' & Hd & Hm); [reflexivity | left; split; [|split]; reflexivity |].
  exists ev, p'; split; [exact Hd|].
  destruct Hm as (Hest & Heq & _); destruct (Heq eq_refl) as (Hev & _ & Hst).
  split; [exact Hev | split; assumption].
Defined.

(** ** C8 *)

(** C8: an opening tag closed by [EmptyTagEnd] (after its name or after its
    attributes), whose element and attribute prefixes resolve, emits
    [StartElement]; the paired [EndElement] is put in the lookahead slot and
    the element stack is left unchanged; the next call of [next] returns the
    [EndElement] without consuming input, with the namespace stack still
    unchanged; only the call after that pops the element's scope before it
    reads a token. *)
Theorem C8_self_closing_tag : forall p nm u attrs,
  (st p = InsideOpeningTag InsideTag /\ element_name (data p) = Some nm
   \/ st p = InsideOpeningTag InsideName /\ parse_name (buf p) = Some nm
      /\ reserved_prefix (prefix nm) = false) ->
  nst_get (nst p) (prefix nm) = Some u ->
  resolve_attributes (nst p) (attributes (data p)) = inr attrs ->
  finish_event p = None ->
  let cn := with_namespace (resolved u) nm in
  exists p1,
    dispatch_token EmptyTagEnd p = Ok (Some (events.StartElement cn attrs (nst_squash (nst p))), p1)
    /\ next_event p1 = Some (events.EndElement cn) /\ est p1 = est p /\ nst p1 = nst p
    /\ pop_namespace p1 = true /\ st p1 = OutsideTag /\ finish_event p1 = None
    /\ (forall input, next p1 input = Ok (events.EndElement cn, set_next_event None p1, input))
    /\ (forall input, next (set_next_event None p1) input =
          next_loop input (set_nst (nst_pop (nst p))
                             (set_pop_namespace false (set_next_event None p1)))).
Proof.
  intros p nm u attrs Hpath Hns Hattrs Hfin cn.
  destruct Hpath as [[Hst Hname] | [Hst [Hname Hres]]];
    unfold dispatch_token; unfold_monad; rewrite Hst; cbn.
  - unfold emit_start_element; unfold_monad; cbn; rewrite Hname; cbn; rewrite Hns, Hattrs; cbn.
    eexists; split; [reflexivity|]; cbn; repeat split; try assumption;
      intros input; unfold next; cbn; rewrite Hfin; reflexivity.
  - destruct (utf8_len (buf p) <=? 1); cbn; rewrite Hname, Hres; cbn;
      unfold emit_start_element; unfold_monad; cbn; rewrite Hns, Hattrs; cbn;
      (eexists; split; [reflexivity|]); cbn; repeat split; try assumption;
      intros input; unfold next; cbn; rewrite Hfin; reflexivity.
Qed.

Lemma C8_witness :
  exists p1,
    dispatch_token EmptyTagEnd
      (set_st (InsideOpeningTag InsideName) (set_buf (rs "a") (new cfg_plain))) =
      Ok (Some (events.StartElement (new_local (rs "a")) [] (nst_squash nst_default)), p1)
    /\ next_event p1 = Some (events.EndElement (new_local (rs "a"))) /\ est p1 = [].
Proof.
  destruct (C8_self_closing_tag
              (set_st (InsideOpeningTag InsideName) (set_buf (rs "a") (new cfg_plain)))
              (new_local (rs "a")) [] [])
    as (p1 & Hd & Hn & He & _); [right; split; [|split]; reflexivity | reflexivity
                                  | reflexivity | reflexivity |].
  exists p1; split; [exact Hd | split; [exact Hn | exact He]].
Defined.

(** ** Effects of one token, and invariants of the reachable states *)

Ltac unfold_handlers :=
  unfold dispatch_token, outside_tag, outside_tag_markup, flush_buffer, inside_doctype,
    inside_processing_instruction, inside_declaration, emit_start_document,
    inside_opening_tag, on_attribute_value, emit_start_element, inside_closing_tag_name,
    emit_end_element, inside_comment, inside_cdata, inside_reference, decode_reference,
    slice_or_panic, read_qualified_name, read_attribute_value, append_char_continue,
    append_str_continue, disable_errors, enable_errors, take_name, take_ref_data,
    take_version, take_encoding, take_standalone, take_element_name, take_attr_name,
    take_attributes.
Ltac split_match :=
  match goal with
  | |- context [match ?x with _ => _ end] =>
      lazymatch x with
      | context [match _ with _ => _ end] => fail
      | _ => destruct x eqn:?
      end
  end.
Ltac red_all := cbv beta iota zeta delta [bind ret gets modify panic id into_state_emit into_state_continue into_state
  modify_data take_data take_buf set_config set_lexer set_st set_buf set_nst set_data set_finish_event
  set_next_event set_est set_encountered_element set_parsed_declaration set_inside_whitespace
  set_read_prefix_separator set_pop_namespace with_name with_ref_data with_version with_encoding
  with_standalone with_element_name with_quote with_attr_name with_attributes
  config lexer st buf nst data finish_event next_event est encountered_element parsed_declaration
  inside_whitespace read_prefix_separator pop_namespace
  name ref_data version encoding standalone element_name quote attr_name attributes].


Ltac close_ct :=
  unfold ct_inv, ct_ok; red_all;
  first [ exact I
        | assumption
        | let H := fresh "H" in intro H; subst; cbn in *; congruence ].

Ltac close_step :=
  unfold step_ok, est_pop_panic, pending; red_all;
  lazymatch goal with
  | |- _ <> _ => first [discriminate | exfalso; congruence]
  | _ =>
    (split; [|split; [|split]]);
    [ reflexivity
    | let Hr := fresh "Hr" in intros Hr;
      first [discriminate Hr | split; [reflexivity | split; [reflexivity | close_ct]]]
    | let x := fresh "x" in let Hx := fresh "Hx" in let He := fresh "He" in
      intros x Hx He;
      first [discriminate Hx
            | injection Hx as <-; split; [cbn in He |- *; first [discriminate He | lia] | close_ct]]
    | first [left; reflexivity | right; eexists; reflexivity] ]
  end.

Ltac step_tac := unfold_handlers; red_all; repeat (split_match; red_all); close_step.

Ltac step_intro :=
  let p := fresh "p" in let Hne := fresh "Hne" in let Hst := fresh "Hst" in
  let Hct := fresh "Hct" in
  intros p Hne Hst Hct; destruct p; cbn in Hne, Hst; subst;
  unfold ct_inv, ct_ok in Hct; cbn in Hct.

(** One lemma per state handler, by case analysis on the state's fields,
    the substate and the token. *)

Lemma step_outside : forall t p, next_event p = None -> st p = OutsideTag -> ct_inv p ->
  step_ok p (outside_tag t p).
Proof. intros t; step_intro; destruct t; step_tac. Qed.
Lemma step_doctype : forall t p, next_event p = None -> st p = InsideDoctype -> ct_inv p ->
  step_ok p (inside_doctype t p).
Proof. intros t; step_intro; destruct t; step_tac. Qed.
Lemma step_pi : forall t s p, next_event p = None -> st p = InsideProcessingInstruction s ->
  ct_inv p -> step_ok p (inside_processing_instruction t s p).
Proof. intros t s; step_intro; destruct s, t; step_tac. Qed.
Lemma step_comment : forall t p, next_event p = None -> st p = InsideComment -> ct_inv p ->
  step_ok p (inside_comment t p).
Proof. intros t; step_intro; destruct t; step_tac. Qed.
Lemma step_cdata : forall t p, next_event p = None -> st p = InsideCData -> ct_inv p ->
  step_ok p (inside_cdata t p).
Proof. intros t; step_intro; destruct t; step_tac. Qed.
Lemma step_ref : forall t s p, next_event p = None -> st p = InsideReference s -> ct_inv p ->
  step_ok p (inside_reference t s p).
Proof.
  intros t s; step_intro; destruct t;
    first [step_tac | destruct s; try contradiction; step_tac].
Qed.
Lemma step_closing : forall t s p, next_event p = None -> st p = InsideClosingTag s ->
  ct_inv p -> step_ok p (inside_closing_tag_name t s p).
Proof. intros t s; step_intro; destruct s, t; step_tac. Qed.
Lemma step_opening : forall t s p, next_event p = None -> st p = InsideOpeningTag s ->
  ct_inv p -> step_ok p (inside_opening_tag t s p).
Proof. intros t s; step_intro; destruct s, t; step_tac. Qed.
Lemma step_decl : forall t s p, next_event p = None -> st p = InsideDeclaration s ->
  ct_inv p -> step_ok p (inside_declaration t s p).
Proof. intros t s; step_intro; destruct s, t; step_tac. Qed.


Arguments dispatch_token : simpl never.

Lemma step_dispatch : forall t p, next_event p = None -> ct_inv p ->
  step_ok p (dispatch_token t p).
Proof.
  intros t p Hne Hct. cbv beta iota delta [dispatch_token bind gets].
  destruct (st p) eqn:Hst;
    first [ apply step_outside | apply step_opening | apply step_closing | apply step_pi
          | apply step_comment | apply step_cdata | apply step_decl | apply step_doctype
          | apply step_ref ]; assumption.
Qed.

Lemma terminal_counts : forall ev, is_terminal ev = true ->
  is_start_element ev = 0%nat /\ is_end_element ev = 0%nat.
Proof. intros [] H; try discriminate H; split; reflexivity. Qed.

Lemma error_terminal : forall ev, is_error_event ev = true -> is_terminal ev = true.
Proof. intros [] H; try discriminate H; reflexivity. Qed.

Lemma end_of_stream_terminal : forall p, is_terminal (end_of_stream_event p) = true.
Proof.
  intros p. unfold end_of_stream_event.
  destruct (Nat.eqb _ _), (encountered_element p), (st p); reflexivity.
Qed.

Lemma ct_inv_fields : forall p q, st q = st p -> est q = est p -> ct_inv p -> ct_inv q.
Proof. unfold ct_inv. intros p q -> ->. trivial. Qed.

Lemma loop_inv : forall input p s e ev p' r,
  next_event p = None -> finish_event p = None -> ct_inv p ->
  (List.length (est p) + e)%nat = s ->
  next_loop input p = Ok (ev, p', r) ->
  inv p' (s + is_start_element ev) (e + is_end_element ev).
Proof.
  induction input as [|[t|msg] rest IH]; intros p s e ev p' r Hne Hfin Hct Hc Hl; cbn in Hl.
  - injection Hl as <- <- <-.
    destruct (terminal_counts _ (end_of_stream_terminal p)) as [Hs He].
    unfold inv, slot_ok, fin_ok, not_failed, pending; cbn.
    rewrite Hne, Hs, He. repeat split.
    + left; reflexivity.
    + apply end_of_stream_terminal.
    + discriminate.
    + intros _. lia.
  - pose proof (step_dispatch t p Hne Hct) as Hs.
    destruct (dispatch_token t p) as [[[ev0|] p0]|w] eqn:Hd; cbn in Hl; try discriminate Hl.
    + injection Hl as <- <- <-.
      unfold step_ok in Hs. destruct Hs as (Hf & _ & Hcnt & Hslot).
      destruct (is_error_event ev0) eqn:Herr.
      * rewrite (error_terminal _ Herr).
        destruct ev0; try discriminate Herr.
        unfold inv, slot_ok, fin_ok, not_failed; cbn. repeat split.
        -- exact Hslot.
        -- discriminate.
        -- intros Hnf. exfalso. eapply Hnf. reflexivity.
      * destruct (Hcnt ev0 eq_refl Herr) as [Hc0 Hct0].
        destruct (is_terminal ev0) eqn:Ht.
        -- unfold inv, slot_ok, fin_ok, pending in *; cbn. repeat split.
           ++ exact Hslot.
           ++ exact Ht.
           ++ discriminate.
           ++ intros _. lia.
        -- unfold inv, slot_ok, fin_ok. repeat split.
           ++ exact Hslot.
           ++ rewrite Hf, Hfin. exact I.
           ++ intros _. exact Hct0.
           ++ intros _. lia.
    + unfold step_ok in Hs. destruct Hs as (Hf & Hnone & _ & _).
      destruct (Hnone eq_refl) as (Hest & Hne0 & Hct0).
      apply (IH p0 s e ev p' r Hne0); auto.
      * rewrite Hf. exact Hfin.
      * rewrite Hest. exact Hc.
  - injection Hl as <- <- <-.
    unfold inv, slot_ok, fin_ok, not_failed; cbn. repeat split.
    + left; exact Hne.
    + discriminate.
    + intros Hnf. exfalso. eapply Hnf. reflexivity.
Qed.

Lemma next_inv : forall p s e input ev p' r, inv p s e ->
  next p input = Ok (ev, p', r) ->
  inv p' (s + is_start_element ev) (e + is_end_element ev).
Proof.
  intros p s e input ev p' r (Hslot & Hfo & Hct & Hc) Hn. unfold next in Hn.
  destruct (finish_event p) as [ev0|] eqn:Hf.
  - injection Hn as <- <- <-.
    unfold fin_ok in Hfo. rewrite Hf in Hfo.
    destruct (terminal_counts _ Hfo) as [-> ->].
    rewrite !Nat.add_0_r. unfold inv, fin_ok. rewrite Hf. auto.
  - assert (Hnf : not_failed p) by (intros m; rewrite Hf; discriminate).
    specialize (Hc Hnf). specialize (Hct eq_refl).
    destruct Hslot as [Hne | [n Hne]]; rewrite Hne in Hn.
    + unfold pending in Hc. rewrite Hne in Hc.
      eapply loop_inv; [| | | | exact Hn].
      * destruct (pop_namespace p); reflexivity || exact Hne.
      * destruct (pop_namespace p); reflexivity || exact Hf.
      * destruct (pop_namespace p); [|exact Hct].
        eapply ct_inv_fields; [| |exact Hct]; reflexivity.
      * destruct (pop_namespace p); cbn; lia.
    + injection Hn as <- <- <-.
      unfold pending in Hc. rewrite Hne in Hc.
      unfold inv, slot_ok, fin_ok, not_failed, pending; cbn. rewrite Hf. repeat split.
      * left; reflexivity.
      * intros _. eapply ct_inv_fields; [| |exact Hct]; reflexivity.
      * intros _. lia.
Qed.

Lemma run_inv : forall p s e, run p s e -> inv p s e.
Proof.
  induction 1 as [cfg | p s e input ev p' input' _ IH Hn].
  - unfold inv, slot_ok, fin_ok, ct_inv, ct_ok, pending; cbn. repeat split; auto.
  - eapply next_inv; eassumption.
Qed.

Lemma pull_states_run : forall n p s e input q s' e' input',
  run p s e -> pull_states n p s e input = Some (q, s', e', input') -> run q s' e'.
Proof.
  induction n as [|n IH]; intros p s e input q s' e' input' Hr Hp; cbn in Hp.
  - injection Hp as <- <- <- _. exact Hr.
  - destruct (next p input) as [[[ev p'] inp']|w] eqn:Hn; [|discriminate Hp].
    eapply IH; [|exact Hp]. eapply run_next; eassumption.
Qed.

Lemma loop_terminal : forall input p ev p' r,
  next_loop input p = Ok (ev, p', r) -> is_terminal ev = true -> finish_event p' = Some ev.
Proof.
  induction input as [|[t|msg] rest IH]; intros p ev p' r Hl Ht; cbn in Hl.
  - injection Hl as <- <- <-. reflexivity.
  - destruct (dispatch_token t p) as [[[ev0|] p0]|w]; try discriminate Hl.
    + injection Hl as <- <- <-. rewrite Ht. reflexivity.
    + eapply IH; eassumption.
  - injection Hl as <- <- <-. reflexivity.
Qed.



(** ** C4 *)

(** C4 (counterexample): after [<a/>] the client has pulled [StartDocument]
    and [StartElement a]: one [StartElement] and no [EndElement] so far,
    while the element stack is empty (a self-closing element is never pushed)
    and the paired [EndElement] waits in the lookahead slot. *)
Lemma C4_counterexample :
  run (state_after 2 cfg_plain doc_empty_a) 1 0 /\
  List.length (est (state_after 2 cfg_plain doc_empty_a)) = 0%nat /\
  pending (state_after 2 cfg_plain doc_empty_a) = 1%nat.
Proof.
  split; [|vm_compute; split; reflexivity].
  eapply (pull_states_run 2 (new cfg_plain) 0 0 doc_empty_a); [apply run_new|].
  vm_compute. reflexivity.
Qed.

(** C4 (amended): between two calls of [next], as long as no [Error] event
    has been returned, the depth of the element stack plus the number of
    events waiting in the lookahead slot equals the number of [StartElement]
    events returned minus the number of [EndElement] events returned. *)
Theorem C4_depth_plus_slot_balance : forall p s e,
  run p s e -> not_failed p ->
  (List.length (est p) + pending p + e)%nat = s.
Proof.
  intros p s e Hr Hnf. destruct (run_inv p s e Hr) as (_ & _ & _ & Hc). exact (Hc Hnf).
Qed.

Lemma C4_witness :
  (List.length (est (state_after 2 cfg_plain doc_empty_a))
   + pending (state_after 2 cfg_plain doc_empty_a) + 0)%nat = 1%nat.
Proof.
  apply (C4_depth_plus_slot_balance (state_after 2 cfg_plain doc_empty_a) 1 0).
  - eapply (pull_states_run 2 (new cfg_plain) 0 0 doc_empty_a); [apply run_new|].
    vm_compute. reflexivity.
  - intros m. vm_compute. discriminate.
Defined.

(** ** C5 *)

(** C5: once [next] has returned [EndDocument] or an [Error] event, every
    later call of [next] returns the same event, consumes no lexer output and
    leaves the parser unchanged. *)
Theorem C5_terminal_event_sticky : forall p s e input ev p' input',
  run p s e -> next p input = Ok (ev, p', input') -> is_terminal ev = true ->
  forall input2, next p' input2 = Ok (ev, p', input2).
Proof.
  intros p s e input ev p' input' Hr Hn Ht input2.
  destruct (run_inv p s e Hr) as (Hslot & Hfo & _ & _).
  assert (Hf : finish_event p' = Some ev).
  { unfold next in Hn. destruct (finish_event p) as [ev0|] eqn:Hf0.
    - injection Hn as <- <- <-. exact Hf0.
    - destruct Hslot as [Hne | [n Hne]]; rewrite Hne in Hn.
      + eapply loop_terminal; eassumption.
      + injection Hn as <- <- <-. discriminate Ht. }
  unfold next. rewrite Hf. reflexivity.
Qed.

Lemma C5_witness :
  next (set_finish_event (Some (end_of_stream_event (new cfg_plain))) (new cfg_plain))
       doc_empty_a
  = Ok (end_of_stream_event (new cfg_plain),
        set_finish_event (Some (end_of_stream_event (new cfg_plain))) (new cfg_plain),
        doc_empty_a).
Proof.
  apply (C5_terminal_event_sticky (new cfg_plain) 0 0 [] (end_of_stream_event (new cfg_plain))
           (set_finish_event (Some (end_of_stream_event (new cfg_plain))) (new cfg_plain)) []).
  - apply run_new.
  - vm_compute. reflexivity.
  - vm_compute. reflexivity.
Defined.

(** ** C10 *)




(** * Further properties of the parser *)

Lemma next_loop_silent : forall ts p p' rest,
  silent ts p = Some p' -> next_loop (toks ts ++ rest) p = next_loop rest p'.
Proof.
  induction ts as [|t ts IH]; intros p p' rest H; cbn in H |- *.
  - injection H as <-. reflexivity.
  - destruct (dispatch_token t p) as [[[ev|] p1]|w]; try discriminate H.
    apply IH. exact H.
Qed.

Lemma token_text_cons : forall t ts, token_text (t :: ts) = token_to_string t ++ token_text ts.
Proof. reflexivity. Qed.

Ltac dstep := unfold dispatch_token, inside_comment, inside_cdata, inside_doctype,
  inside_processing_instruction, bind, gets, ret, modify, append_str_continue,
  append_char_continue, into_state_continue, into_state, into_state_emit, take_buf,
  enable_errors, disable_errors, take_name, take_data, modify_data; cbn.

Lemma set_buf_set_buf : forall a b p, set_buf a (set_buf b p) = set_buf a p.
Proof. intros a b []; reflexivity. Qed.

Lemma comment_keep_step : forall t p,
  st p = InsideComment -> ignore_comments (config p) = false -> comment_body_ok t = true ->
  dispatch_token t p = Ok (None, set_buf (buf p ++ token_to_string t) p).
Proof.
  intros t p Hst Hig Ht. destruct p; cbn in Hst, Hig; subst.
  dstep; rewrite Hig. destruct t; cbn in Ht; try discriminate Ht; try reflexivity.
  apply negb_true_iff in Ht. rewrite Ht. reflexivity.
Qed.

Lemma comment_keep_silent : forall ts p,
  st p = InsideComment -> ignore_comments (config p) = false -> forallb comment_body_ok ts = true ->
  silent ts p = Some (set_buf (buf p ++ token_text ts) p).
Proof.
  induction ts as [|t ts IH]; intros p Hst Hig Hok.
  - destruct p; cbn; rewrite app_nil_r; reflexivity.
  - cbn in Hok. apply andb_true_iff in Hok as [Ht Hok].
    cbn [silent]. rewrite (comment_keep_step t p Hst Hig Ht).
    rewrite IH; [| destruct p; assumption.. ].
    rewrite set_buf_set_buf, token_text_cons, app_assoc. destruct p; reflexivity.
Qed.

(** X1: with [ignore_comments] off, a comment body of tokens other than
    [-->] and [--] is collected verbatim after the buffer and reported as
    one [Comment] event on [-->]; the parser is back [OutsideTag] with an
    empty buffer and lexer errors enabled. *)
Lemma X1_comment_kept : forall ts p rest,
  st p = InsideComment -> ignore_comments (config p) = false -> forallb comment_body_ok ts = true ->
  next_loop (toks (ts ++ [CommentEnd]) ++ rest) p
  = Ok (events.Comment (buf p ++ token_text ts),
        set_st OutsideTag (set_buf [] (set_lexer (mkLexer true) p)), rest).
Proof.
  intros ts p rest Hst Hig Hok.
  unfold toks. rewrite map_app, <- app_assoc.
  rewrite (next_loop_silent ts p _ _ (comment_keep_silent ts p Hst Hig Hok)).
  destruct p; cbn in Hst, Hig |- *; subst. dstep. rewrite Hig. reflexivity.
Qed.

Lemma comment_skip_step : forall t p,
  st p = InsideComment -> ignore_comments (config p) = true -> comment_body_ok t = true ->
  dispatch_token t p = Ok (None, p).
Proof.
  intros t p Hst Hig Ht. destruct p; cbn in Hst, Hig; subst.
  dstep. rewrite Hig. destruct t; cbn in Ht; try discriminate Ht; try reflexivity.
  apply negb_true_iff in Ht. rewrite Ht. reflexivity.
Qed.

Lemma comment_skip_silent : forall ts p,
  st p = InsideComment -> ignore_comments (config p) = true -> forallb comment_body_ok ts = true ->
  silent ts p = Some p.
Proof.
  induction ts as [|t ts IH]; intros p Hst Hig Hok; [reflexivity|].
  cbn in Hok. apply andb_true_iff in Hok as [Ht Hok].
  cbn [silent]. rewrite (comment_skip_step t p Hst Hig Ht). apply IH; assumption.
Qed.

(** X2: with [ignore_comments] on, the same comment yields no event: the
    token loop goes on after [-->] [OutsideTag], with the buffer untouched
    and lexer errors enabled. *)
Lemma X2_comment_ignored : forall ts p rest,
  st p = InsideComment -> ignore_comments (config p) = true -> forallb comment_body_ok ts = true ->
  next_loop (toks (ts ++ [CommentEnd]) ++ rest) p
  = next_loop rest (set_st OutsideTag (set_lexer (mkLexer true) p)).
Proof.
  intros ts p rest Hst Hig Hok.
  unfold toks. rewrite map_app, <- app_assoc.
  rewrite (next_loop_silent ts p _ _ (comment_skip_silent ts p Hst Hig Hok)).
  destruct p; cbn in Hst, Hig |- *; subst. dstep. rewrite Hig. reflexivity.
Qed.

Lemma cdata_step : forall t p,
  st p = InsideCData -> not_token CDataEnd t = true ->
  dispatch_token t p = Ok (None, set_buf (buf p ++ token_to_string t)
                                   (set_inside_whitespace (inside_whitespace p && is_ws_token t) p)).
Proof.
  intros t p Hst Ht. destruct p; cbn in Hst; subst.
  dstep. destruct t; cbn in Ht; try discriminate Ht; cbn; rewrite ?andb_true_r, ?andb_false_r; reflexivity.
Qed.

Lemma cdata_silent : forall ts p,
  st p = InsideCData -> forallb (not_token CDataEnd) ts = true ->
  silent ts p = Some (set_buf (buf p ++ token_text ts)
                        (set_inside_whitespace (inside_whitespace p && forallb is_ws_token ts) p)).
Proof.
  induction ts as [|t ts IH]; intros p Hst Hok.
  - destruct p; cbn; rewrite app_nil_r, andb_true_r; reflexivity.
  - cbn in Hok. apply andb_true_iff in Hok as [Ht Hok].
    cbn [silent]. rewrite (cdata_step t p Hst Ht).
    rewrite IH; [| destruct p; assumption.. ].
    rewrite token_text_cons, app_assoc. destruct p; cbn - [token_text]. rewrite andb_assoc. reflexivity.
Qed.

(** X3: with [cdata_to_characters] off, the tokens of a CDATA section up to
    the CDATA end are collected verbatim and reported as one [CData] event;
    the whitespace flag stays set only if all of them are whitespace. *)
Lemma X3_cdata_emitted : forall ts p rest,
  st p = InsideCData -> cdata_to_characters (config p) = false ->
  forallb (not_token CDataEnd) ts = true ->
  next_loop (toks (ts ++ [CDataEnd]) ++ rest) p
  = Ok (events.CData (buf p ++ token_text ts),
        set_st OutsideTag (set_buf [] (set_lexer (mkLexer true)
          (set_inside_whitespace (inside_whitespace p && forallb is_ws_token ts) p))), rest).
Proof.
  intros ts p rest Hst Hc Hok.
  unfold toks. rewrite map_app, <- app_assoc.
  rewrite (next_loop_silent ts p _ _ (cdata_silent ts p Hst Hok)).
  destruct p; cbn in Hst, Hc |- *; subst. dstep. rewrite Hc. reflexivity.
Qed.

(** X4: with [cdata_to_characters] on, a CDATA section yields no event: its
    text is appended to the character buffer and the loop goes on
    [OutsideTag]. *)
Lemma X4_cdata_merged : forall ts p rest,
  st p = InsideCData -> cdata_to_characters (config p) = true ->
  forallb (not_token CDataEnd) ts = true ->
  next_loop (toks (ts ++ [CDataEnd]) ++ rest) p
  = next_loop rest (set_st OutsideTag (set_lexer (mkLexer true)
      (set_buf (buf p ++ token_text ts)
         (set_inside_whitespace (inside_whitespace p && forallb is_ws_token ts) p)))).
Proof.
  intros ts p rest Hst Hc Hok.
  unfold toks. rewrite map_app, <- app_assoc.
  rewrite (next_loop_silent ts p _ _ (cdata_silent ts p Hst Hok)).
  destruct p; cbn in Hst, Hc |- *; subst. dstep. rewrite Hc. reflexivity.
Qed.

Lemma doctype_silent : forall ts p,
  st p = InsideDoctype -> forallb (not_token TagEnd) ts = true -> silent ts p = Some p.
Proof.
  induction ts as [|t ts IH]; intros p Hst Hok; [reflexivity|].
  cbn in Hok. apply andb_true_iff in Hok as [Ht Hok].
  cbn [silent].
  assert (Hd : dispatch_token t p = Ok (None, p)).
  { destruct p; cbn in Hst; subst. dstep. destruct t; cbn in Ht; try discriminate Ht; reflexivity. }
  rewrite Hd. apply IH; assumption.
Qed.

(** X5: a DOCTYPE is skipped up to the first [>]: no event, no change but
    the state and the lexer error switch. *)
Lemma X5_doctype_skipped : forall ts p rest,
  st p = InsideDoctype -> forallb (not_token TagEnd) ts = true ->
  next_loop (toks (ts ++ [TagEnd]) ++ rest) p
  = next_loop rest (set_st OutsideTag (set_lexer (mkLexer true) p)).
Proof.
  intros ts p rest Hst Hok.
  unfold toks. rewrite map_app, <- app_assoc.
  rewrite (next_loop_silent ts p _ _ (doctype_silent ts p Hst Hok)).
  destruct p; cbn in Hst |- *; subst. dstep. reflexivity.
Qed.

Lemma pi_data_silent : forall ts p,
  st p = InsideProcessingInstruction PIInsideData ->
  forallb (not_token ProcessingInstructionEnd) ts = true ->
  silent ts p = Some (set_buf (buf p ++ token_text ts) p).
Proof.
  induction ts as [|t ts IH]; intros p Hst Hok.
  - destruct p; cbn; rewrite app_nil_r; reflexivity.
  - cbn in Hok. apply andb_true_iff in Hok as [Ht Hok].
    cbn [silent].
    assert (Hd : dispatch_token t p = Ok (None, set_buf (buf p ++ token_to_string t) p)).
    { destruct p; cbn in Hst; subst. dstep. destruct t; cbn in Ht; try discriminate Ht; reflexivity. }
    rewrite Hd, IH; [| destruct p; assumption.. ].
    rewrite set_buf_set_buf, token_text_cons, app_assoc. destruct p; reflexivity.
Qed.

(** X6: the data of a processing instruction is collected verbatim up to
    [?>] and reported with the stored target as [ProcessingInstruction
    target (Some data)]. *)
Lemma X6_pi_data_emitted : forall ts p rest,
  st p = InsideProcessingInstruction PIInsideData ->
  forallb (not_token ProcessingInstructionEnd) ts = true ->
  next_loop (toks (ts ++ [ProcessingInstructionEnd]) ++ rest) p
  = Ok (events.ProcessingInstruction (name (data p)) (Some (buf p ++ token_text ts)),
        set_st OutsideTag (set_buf [] (set_data (with_name [] (data p)) (set_lexer (mkLexer true) p))),
        rest).
Proof.
  intros ts p rest Hst Hok.
  unfold toks. rewrite map_app, <- app_assoc.
  rewrite (next_loop_silent ts p _ _ (pi_data_silent ts p Hst Hok)).
  destruct p; cbn in Hst |- *; subst. dstep. reflexivity.
Qed.

(** ** references *)

(** X7: a predefined entity ([lt], [gt], [amp], [apos], [quot]) ends with
    its char appended to the buffer and the parser back in the state it came
    from, with no event. *)
Lemma X7_predefined_reference : forall nm c prev p,
  In (nm, c) predefined_entities -> ref_data (data p) = nm ->
  inside_reference ReferenceEnd prev p
  = Ok (None, set_st prev (set_buf (buf p ++ [c]) (set_data (with_ref_data [] (data p)) p))).
Proof.
  intros nm c prev p Hin Hrd.
  destruct p as [? ? ? ? ? [? ? ? ? ? ? ? ? ?] ? ? ? ? ? ? ? ?]; cbn in Hrd; subst.
  cbn in Hin.
  repeat (destruct Hin as [Hin | Hin]; [injection Hin as <- <-; vm_compute; reflexivity |]).
  contradiction.
Qed.

Lemma utf8_len_ascii : forall s, is_ascii s -> utf8_len s = Z.of_nat (List.length s).
Proof.
  induction s as [|c s IH]; intros H; [reflexivity|].
  inversion H as [|? ? Hc Hs]; subst. unfold utf8_len; cbn [fold_right].
  fold (utf8_len s). rewrite IH by exact Hs. unfold utf8_width.
  replace (c <? 128) with true by (symmetry; apply Z.ltb_lt; lia). cbn [List.length]. lia.
Qed.

Lemma drop_bytes_ascii : forall s n, is_ascii s -> (n <= List.length s)%nat ->
  drop_bytes (Z.of_nat n) s = Some (skipn n s).
Proof.
  induction s as [|c s IH]; intros n H Hn.
  - destruct n; [reflexivity | cbn in Hn; lia].
  - destruct n as [|n]; [reflexivity|].
    inversion H as [|? ? Hc Hs]; subst. cbn [List.length] in Hn.
    cbn [drop_bytes]. replace (Z.of_nat (S n) =? 0) with false by (symmetry; apply Z.eqb_neq; lia).
    unfold utf8_width. replace (c <? 128) with true by (symmetry; apply Z.ltb_lt; lia).
    replace (1 <=? Z.of_nat (S n)) with true by (symmetry; apply Z.leb_le; lia).
    replace (Z.of_nat (S n) - 1) with (Z.of_nat n) by lia.
    apply IH; [exact Hs | lia].
Qed.

Lemma take_bytes_ascii : forall s n, is_ascii s -> (n <= List.length s)%nat ->
  take_bytes (Z.of_nat n) s = Some (firstn n s).
Proof.
  induction s as [|c s IH]; intros n H Hn.
  - destruct n; [reflexivity | cbn in Hn; lia].
  - destruct n as [|n]; [reflexivity|].
    inversion H as [|? ? Hc Hs]; subst. cbn [List.length] in Hn.
    cbn [take_bytes]. replace (Z.of_nat (S n) =? 0) with false by (symmetry; apply Z.eqb_neq; lia).
    unfold utf8_width. replace (c <? 128) with true by (symmetry; apply Z.ltb_lt; lia).
    replace (1 <=? Z.of_nat (S n)) with true by (symmetry; apply Z.leb_le; lia).
    replace (Z.of_nat (S n) - 1) with (Z.of_nat n) by lia.
    rewrite IH by (exact Hs || lia). reflexivity.
Qed.

Lemma is_ascii_skipn : forall n s, is_ascii s -> is_ascii (skipn n s).
Proof.
  induction n as [|n IH]; intros s H; [exact H|].
  destruct s as [|c s]; [exact H|]. inversion H; subst. apply IH. assumption.
Qed.

Lemma str_slice_ascii : forall s a b, is_ascii s -> (a <= b <= List.length s)%nat ->
  str_slice s (Z.of_nat a) (Z.of_nat b) = Some (firstn (b - a) (skipn a s)).
Proof.
  intros s a b H Hab. unfold str_slice.
  rewrite drop_bytes_ascii by (exact H || lia).
  replace (Z.of_nat b - Z.of_nat a) with (Z.of_nat (b - a)) by lia.
  apply take_bytes_ascii; [apply is_ascii_skipn; exact H|].
  rewrite length_skipn. lia.
Qed.

Lemma streqb_neq : forall a b, a <> b -> streqb a b = false.
Proof. intros a b H. unfold streqb. destruct (rstring_eq_dec a b); [contradiction | reflexivity]. Qed.

Lemma streqb_refl : forall a, streqb a a = true.
Proof. intros a. unfold streqb. destruct (rstring_eq_dec a a); [reflexivity | contradiction]. Qed.

Lemma fold_digits_ge : forall r ds a, 1 <= r -> 0 <= a -> Forall (fun d => 0 <= d) ds ->
  a <= fold_left (fun a d => a * r + d) ds a.
Proof.
  intros r ds; induction ds as [|d ds IH]; intros a Hr Ha Hds; [cbn; lia|].
  inversion Hds; subst. cbn. specialize (IH (a * r + d) Hr ltac:(nia) ltac:(assumption)). nia.
Qed.

Lemma digits_u32_value : forall r f ds acc,
  1 <= r -> 0 <= acc < 2 ^ 32 ->
  Forall (fun d => 0 <= d < r /\ to_digit (f d) r = Some d) ds ->
  digits_u32 acc r (map f ds)
  = let v := fold_left (fun a d => a * r + d) ds acc in if v <? 2 ^ 32 then Some v else None.
Proof.
  intros r f ds; induction ds as [|d ds IH]; intros acc Hr Hacc Hds; cbn [map digits_u32 fold_left].
  - cbn zeta. replace (acc <? 2 ^ 32) with true by (symmetry; apply Z.ltb_lt; lia). reflexivity.
  - inversion Hds as [|? ? [Hd Hto] Hrest]; subst. rewrite Hto.
    assert (Hpos : Forall (fun d => 0 <= d) ds)
      by (eapply Forall_impl; [|exact Hrest]; intros x [? _]; lia).
    pose proof (fold_digits_ge r ds (acc * r + d) Hr ltac:(nia) Hpos) as Hge.
    destruct (2 ^ 32 <=? acc * r) eqn:H1.
    + apply Z.leb_le in H1. cbn zeta.
      replace (fold_left (fun a d0 => a * r + d0) ds (acc * r + d) <? 2 ^ 32) with false
        by (symmetry; apply Z.ltb_ge; lia). reflexivity.
    + apply Z.leb_gt in H1. destruct (2 ^ 32 <=? acc * r + d) eqn:H2.
      * apply Z.leb_le in H2. cbn zeta.
        replace (fold_left (fun a d0 => a * r + d0) ds (acc * r + d) <? 2 ^ 32) with false
          by (symmetry; apply Z.ltb_ge; lia). reflexivity.
      * apply Z.leb_gt in H2. apply IH; [exact Hr | lia | exact Hrest].
Qed.

Lemma from_u32_big : forall v, 2 ^ 32 <= v -> from_u32 v = None.
Proof.
  intros v Hv. unfold from_u32.
  replace (1114111 <? v) with true by (symmetry; apply Z.ltb_lt; lia). reflexivity.
Qed.

Lemma parse_char_ref_value : forall r f ds,
  1 <= r -> ds <> [] ->
  Forall (fun d => 0 <= d < r /\ to_digit (f d) r = Some d) ds ->
  parse_char_ref (map f ds) r = from_u32 (digits_value r ds).
Proof.
  intros r f ds Hr Hne Hds. unfold parse_char_ref, from_str_radix.
  destruct ds as [|d ds']; [contradiction|].
  change (map f (d :: ds')) with (f d :: map f ds'). rewrite <- (map_cons f d ds').
  rewrite (digits_u32_value r f (d :: ds') 0 Hr ltac:(lia) Hds). cbn zeta.
  unfold digits_value.
  destruct (fold_left _ _ 0 <? 2 ^ 32) eqn:Hlt; [reflexivity|].
  apply Z.ltb_ge in Hlt. rewrite from_u32_big by exact Hlt. reflexivity.
Qed.

Lemma to_digit_dec : forall d, 0 <= d <= 9 -> to_digit (dec_char d) 10 = Some d.
Proof.
  intros d Hd. unfold to_digit, dec_char, in_range.
  replace ((48 <=? 48 + d) && (48 + d <=? 57)) with true
    by (symmetry; apply andb_true_iff; split; apply Z.leb_le; lia).
  replace (48 + d - 48) with d by lia.
  replace (d <? 10) with true by (symmetry; apply Z.ltb_lt; lia). reflexivity.
Qed.

Lemma to_digit_hex : forall d, 0 <= d <= 15 -> to_digit (hex_char d) 16 = Some d.
Proof.
  intros d Hd. unfold to_digit, hex_char, in_range.
  destruct (d <? 10) eqn:H10.
  - apply Z.ltb_lt in H10.
    replace ((48 <=? 48 + d) && (48 + d <=? 57)) with true
      by (symmetry; apply andb_true_iff; split; apply Z.leb_le; lia).
    replace (48 + d - 48) with d by lia.
    replace (d <? 16) with true by (symmetry; apply Z.ltb_lt; lia). reflexivity.
  - apply Z.ltb_ge in H10.
    replace ((48 <=? 87 + d) && (87 + d <=? 57)) with false
      by (symmetry; apply andb_false_iff; right; apply Z.leb_gt; lia).
    replace ((97 <=? 87 + d) && (87 + d <=? 122)) with true
      by (symmetry; apply andb_true_iff; split; apply Z.leb_le; lia).
    replace (87 + d - 97 + 10) with d by lia.
    replace (d <? 16) with true by (symmetry; apply Z.ltb_lt; lia). reflexivity.
Qed.

Lemma slice_from : forall s k, is_ascii s -> (k <= List.length s)%nat ->
  str_slice s (Z.of_nat k) (Z.of_nat (List.length s)) = Some (skipn k s).
Proof.
  intros s k H Hk. rewrite str_slice_ascii by (exact H || lia).
  rewrite firstn_all2; [reflexivity|]. rewrite length_skipn. lia.
Qed.

Lemma slice_first2 : forall a b s, is_ascii (a :: b :: s) ->
  str_slice (a :: b :: s) 0 2 = Some [a; b].
Proof.
  intros a b s H. change 0 with (Z.of_nat 0). change 2 with (Z.of_nat 2).
  rewrite str_slice_ascii by (exact H || (cbn; lia)). reflexivity.
Qed.

Lemma dec_chars_ascii : forall ds, Forall (fun d => 0 <= d <= 9) ds -> is_ascii (map dec_char ds).
Proof.
  intros ds H. unfold is_ascii. rewrite Forall_map. eapply Forall_impl; [|exact H]; cbv beta.
  intros d Hd. unfold dec_char. lia.
Qed.

Lemma hex_chars_ascii : forall ds, Forall (fun d => 0 <= d <= 15) ds -> is_ascii (map hex_char ds).
Proof.
  intros ds H. unfold is_ascii. rewrite Forall_map. eapply Forall_impl; [|exact H]; cbv beta.
  intros d Hd. unfold hex_char. destruct (d <? 10); lia.
Qed.

Lemma map_single_zero : forall (f : Z -> Z) ds, (forall d, f d = f 0 -> d = 0) ->
  ds <> [0] -> map f ds <> [f 0].
Proof.
  intros f ds Hf Hne H. destruct ds as [|d [|d' ds]]; cbn in H; try discriminate H.
  injection H as Hd. apply Hne. rewrite (Hf d Hd). reflexivity.
Qed.

Ltac neq_lit := let H := fresh in intro H; vm_compute in H; discriminate H.

(** X8: a decimal reference [#d...d] other than [#0] decodes to the char of
    its value, or to an [Invalid decimal character number] error when the
    value is not a Unicode scalar value. *)
Lemma X8_decimal_reference : forall ds p,
  ds <> [] -> ds <> [0] -> Forall (fun d => 0 <= d <= 9) ds ->
  decode_reference (35 :: map dec_char ds) p
  = Ok (match from_u32 (digits_value 10 ds) with
        | Some c => inr c
        | None => inl (error (rs "Invalid decimal character number in an entity: "
                              ++ 35 :: map dec_char ds))
        end, p).
Proof.
  intros ds p Hne Hnz Hds.
  assert (Ha : is_ascii (35 :: map dec_char ds))
    by (constructor; [lia | apply dec_chars_ascii; exact Hds]).
  assert (Hz : map dec_char ds <> rs "0").
  { change (rs "0") with [dec_char 0]. apply map_single_zero; [|exact Hnz].
    unfold dec_char. intros d Hd. lia. }
  assert (Hpc : parse_char_ref (map dec_char ds) 10 = from_u32 (digits_value 10 ds)).
  { apply parse_char_ref_value; [lia | exact Hne |].
    refine (Forall_impl _ _ Hds). intros d Hd. split; [lia | apply to_digit_dec; lia]. }
  unfold decode_reference. rewrite (utf8_len_ascii _ Ha).
  rewrite (streqb_neq _ (rs "lt")) by neq_lit.
  rewrite (streqb_neq _ (rs "gt")) by neq_lit.
  rewrite (streqb_neq _ (rs "amp")) by neq_lit.
  rewrite (streqb_neq _ (rs "apos")) by neq_lit.
  rewrite (streqb_neq _ (rs "quot")) by neq_lit.
  rewrite (streqb_neq _ []) by discriminate.
  assert (Hdec : forall q,
    (if (1 <? Z.of_nat (List.length (35 :: map dec_char ds)))
        && match 35 :: map dec_char ds with 35 :: _ => true | _ => false end
     then
       num_str <- slice_or_panic (35 :: map dec_char ds) 1
                    (Z.of_nat (List.length (35 :: map dec_char ds))) ;;
       if streqb num_str (rs "0") then ret (inl (error (rs "Null character entity is not allowed")))
       else match parse_char_ref num_str 10 with
            | Some c => ret (inr c)
            | None => ret (inl (error (rs "Invalid decimal character number in an entity: "
                                       ++ 35 :: map dec_char ds)))
            end
     else ret (inl (error (rs "Unexpected entity: " ++ 35 :: map dec_char ds)))) q
    = Ok (match from_u32 (digits_value 10 ds) with
          | Some c => inr c
          | None => inl (error (rs "Invalid decimal character number in an entity: "
                                ++ 35 :: map dec_char ds))
          end, q)).
  { intros q. destruct ds as [|d ds']; [contradiction|].
    replace (1 <? Z.of_nat (List.length (35 :: map dec_char (d :: ds')))) with true
      by (symmetry; apply Z.ltb_lt; cbn [List.length map]; lia).
    cbn [andb]. unfold slice_or_panic, bind.
    change 1 with (Z.of_nat 1). rewrite slice_from by (exact Ha || (cbn; lia)).
    cbn [skipn]. unfold ret. rewrite (streqb_neq _ _ Hz), Hpc.
    destruct (from_u32 _); reflexivity. }
  destruct ds as [|d [|d' ds']]; [contradiction | |].
  - replace (2 <? Z.of_nat (List.length (35 :: map dec_char [d]))) with false by reflexivity.
    apply Hdec.
  - replace (2 <? Z.of_nat (List.length (35 :: map dec_char (d :: d' :: ds')))) with true
      by (symmetry; apply Z.ltb_lt; cbn [List.length map]; lia).
    unfold bind at 1, slice_or_panic at 1. cbn [map]. rewrite slice_first2 by exact Ha.
    unfold ret at 1. cbv beta iota.
    match goal with |- context [streqb ?x (rs "#x")] => rewrite (streqb_neq x (rs "#x")) end.
    + apply Hdec.
    + inversion Hds as [|? ? Hd0 _]; subst. intro H. change (rs "#x") with [35; 120] in H.
      injection H as H. unfold dec_char in H. lia.
Qed.

(** X9: a hexadecimal reference [#xh...h] (lowercase digits) other than
    [#x0] decodes to the char of its value, or to an [Invalid hexadecimal
    character number] error when the value is not a Unicode scalar value. *)
Lemma X9_hexadecimal_reference : forall ds p,
  ds <> [] -> ds <> [0] -> Forall (fun d => 0 <= d <= 15) ds ->
  decode_reference (35 :: 120 :: map hex_char ds) p
  = Ok (match from_u32 (digits_value 16 ds) with
        | Some c => inr c
        | None => inl (error (rs "Invalid hexadecimal character number in an entity: "
                              ++ 35 :: 120 :: map hex_char ds))
        end, p).
Proof.
  intros ds p Hne Hnz Hds.
  assert (Ha : is_ascii (35 :: 120 :: map hex_char ds))
    by (constructor; [lia | constructor; [lia | apply hex_chars_ascii; exact Hds]]).
  assert (Hz : map hex_char ds <> rs "0").
  { change (rs "0") with [hex_char 0]. apply map_single_zero; [|exact Hnz].
    intros d Hd. change (hex_char 0) with 48 in Hd. unfold hex_char in Hd.
    destruct (d <? 10) eqn:E; [lia|]. apply Z.ltb_ge in E. lia. }
  assert (Hpc : parse_char_ref (map hex_char ds) 16 = from_u32 (digits_value 16 ds)).
  { apply parse_char_ref_value; [lia | exact Hne |].
    refine (Forall_impl _ _ Hds). intros d Hd. split; [lia | apply to_digit_hex; lia]. }
  unfold decode_reference. rewrite (utf8_len_ascii _ Ha).
  rewrite (streqb_neq _ (rs "lt")) by neq_lit.
  rewrite (streqb_neq _ (rs "gt")) by neq_lit.
  rewrite (streqb_neq _ (rs "amp")) by neq_lit.
  rewrite (streqb_neq _ (rs "apos")) by neq_lit.
  rewrite (streqb_neq _ (rs "quot")) by neq_lit.
  rewrite (streqb_neq _ []) by discriminate.
  destruct ds as [|d ds']; [contradiction|].
  replace (2 <? Z.of_nat (List.length (35 :: 120 :: map hex_char (d :: ds')))) with true
    by (symmetry; apply Z.ltb_lt; cbn [List.length map]; lia).
  unfold bind at 1, slice_or_panic at 1. rewrite slice_first2 by exact Ha.
  unfold ret at 1. cbv beta iota.
  change [35; 120] with (rs "#x"). rewrite streqb_refl.
  unfold bind, slice_or_panic. change 2 with (Z.of_nat 2).
  rewrite slice_from by (exact Ha || (cbn; lia)).
  cbn [skipn]. unfold ret. rewrite (streqb_neq _ _ Hz), Hpc.
  destruct (from_u32 _); reflexivity.
Qed.

Ltac ostep := unfold dispatch_token, inside_opening_tag, read_attribute_value,
  on_attribute_value, bind, gets, ret, modify, append_str_continue,
  append_char_continue, into_state_continue, into_state, into_state_emit, take_buf,
  take_attr_name, take_data, modify_data; cbn.

Lemma attr_value_step : forall q t p,
  st p = InsideOpeningTag InsideAttributeValue -> quote (data p) = Some q ->
  attr_value_ok q t = true ->
  dispatch_token t p = Ok (None, set_buf (buf p ++ token_to_string t) p).
Proof.
  intros q t p Hst Hq Ht. destruct p as [cf lx s b n [] fe ne e ee pd iw rp pn];
    cbn in Hst, Hq; subst.
  ostep. destruct q, t; cbn in Ht; try discriminate Ht; reflexivity.
Qed.

Lemma attr_value_silent : forall q ts p,
  st p = InsideOpeningTag InsideAttributeValue -> quote (data p) = Some q ->
  forallb (attr_value_ok q) ts = true ->
  silent ts p = Some (set_buf (buf p ++ token_text ts) p).
Proof.
  induction ts as [|t ts IH]; intros p Hst Hq Hok.
  - destruct p; cbn; rewrite app_nil_r; reflexivity.
  - cbn in Hok. apply andb_true_iff in Hok as [Ht Hok].
    cbn [silent]. rewrite (attr_value_step q t p Hst Hq Ht).
    rewrite IH; [| destruct p; assumption.. ].
    rewrite set_buf_set_buf, token_text_cons, app_assoc. destruct p; reflexivity.
Qed.

Lemma attr_value_close : forall q nm p,
  st p = InsideOpeningTag InsideAttributeValue -> quote (data p) = Some q ->
  attr_name (data p) = Some nm -> plain_attr_name nm = true ->
  dispatch_token (as_token q) p
  = Ok (None, set_st (InsideOpeningTag InsideTag)
                (set_data (with_attributes (attributes (data p) ++ [(nm, buf p)])
                             (with_attr_name None (with_quote None (data p))))
                   (set_buf [] p))).
Proof.
  intros q nm p Hst Hq Ha Hpl. destruct p as [cf lx s b n [] fe ne e ee pd iw rp pn];
    cbn in Hst, Hq, Ha; subst.
  ostep. destruct q; unfold Token_eqb; cbn; unfold plain_attr_name in Hpl;
    destruct nm as [pr ln ns]; cbn in Hpl |- *;
    destruct pr as [pr|]; apply negb_true_iff in Hpl; rewrite Hpl; reflexivity.
Qed.

Lemma attr_value_collect : forall q ts nm p rest,
  st p = InsideOpeningTag InsideAttributeValue -> quote (data p) = Some q ->
  attr_name (data p) = Some nm -> plain_attr_name nm = true ->
  forallb (attr_value_ok q) ts = true ->
  next_loop (toks (ts ++ [as_token q]) ++ rest) p
  = next_loop rest
      (set_st (InsideOpeningTag InsideTag)
         (set_data (with_attributes (attributes (data p) ++ [(nm, buf p ++ token_text ts)])
                      (with_attr_name None (with_quote None (data p))))
            (set_buf [] p))).
Proof.
  intros q ts nm p rest Hst Hq Ha Hpl Hok.
  unfold toks. rewrite map_app, <- app_assoc. fold (toks ts).
  rewrite (next_loop_silent ts p _ _ (attr_value_silent q ts p Hst Hq Hok)).
  cbn [map app next_loop].
  rewrite (attr_value_close q nm) by (destruct p; assumption).
  destruct p; reflexivity.
Qed.

(** X10: inside a quoted attribute value, the tokens up to the closing quote
    are appended verbatim to the buffer; on the closing quote a plain
    attribute (not [xmlns] or [xmlns:...]) is added with that text at the
    end of the attribute list, the quote and attribute name are cleared and
    the parser is back in the tag, with no event. *)
Lemma X10_attribute_value_collected : forall q ts nm p rest,
  st p = InsideOpeningTag InsideAttributeValue -> quote (data p) = Some q ->
  attr_name (data p) = Some nm -> plain_attr_name nm = true ->
  forallb (attr_value_ok q) ts = true ->
  next_loop (toks (ts ++ [as_token q]) ++ rest) p
  = next_loop rest
      (set_st (InsideOpeningTag InsideTag)
         (set_data (with_attributes (attributes (data p) ++ [(nm, buf p ++ token_text ts)])
                      (with_attr_name None (with_quote None (data p))))
            (set_buf [] p))).
Proof.
  intros q ts nm p rest Hst Hq Ha Hpl Hok. exact (attr_value_collect q ts nm p rest Hst Hq Ha Hpl Hok).
Qed.

Lemma pull_emit : forall f p t rest ev p',
  ready p = true -> dispatch_token t p = Ok (Some ev, p') -> is_terminal ev = false ->
  pull_events (S f) p (LexOk t :: rest) = ev :: pull_events f p' rest.
Proof.
  intros f p t rest ev p' Hr Hd Ht. unfold ready in Hr. cbn [pull_events]. unfold next.
  destruct (finish_event p); [discriminate|]. destruct (next_event p); [discriminate|].
  destruct (pop_namespace p); [discriminate|]. cbn [next_loop]. rewrite Hd, Ht. reflexivity.
Qed.

Lemma pull_skip : forall f p p' l rest,
  ready p = true -> next_loop (l ++ rest) p = next_loop rest p' -> ready p' = true ->
  pull_events (S f) p (l ++ rest) = pull_events (S f) p' rest.
Proof.
  intros f p p' l rest Hr Hl Hr'. unfold ready in Hr, Hr'. cbn [pull_events]. unfold next.
  destruct (finish_event p); [discriminate|]. destruct (next_event p); [discriminate|].
  destruct (pop_namespace p); [discriminate|].
  destruct (finish_event p'); [discriminate|]. destruct (next_event p'); [discriminate|].
  destruct (pop_namespace p'); [discriminate|]. rewrite Hl. reflexivity.
Qed.

(** X11: [<a x=QvQ/>] (Q a double quote), where the value tokens contain no
    double quote, [&] or [<],
    gives StartDocument, StartElement [a] with the single attribute [x]
    whose value is the text of the tokens, EndElement [a] and EndDocument
    (the source test [semicolon_in_attribute_value__issue_3] for every such
    value). *)
Lemma X11_attribute_document : forall cfg ts,
  forallb (attr_value_ok DoubleQuoteToken) ts = true ->
  pull_events 5 (new cfg)
    (toks ([OpeningTagStart; Character 97; Whitespace 32; Character 120; EqualsSign; DoubleQuote]
           ++ ts ++ [DoubleQuote; EmptyTagEnd]))
  = [events.StartDocument Version10 (rs "UTF-8") None;
     events.StartElement (mkName None (rs "a") None)
       [(mkName None (rs "x") None, token_text ts)] (nst_squash ([] :: nst_default));
     events.EndElement (mkName None (rs "a") None);
     events.EndDocument].
Proof.
  intros cfg ts Hok.
  replace (toks _) with
    (LexOk OpeningTagStart
     :: toks [Character 97; Whitespace 32; Character 120; EqualsSign; DoubleQuote]
     ++ toks (ts ++ [as_token DoubleQuoteToken]) ++ [LexOk EmptyTagEnd])
    by (unfold toks; rewrite !map_app, <- !app_assoc; reflexivity).
  erewrite pull_emit; [| reflexivity | cbv; reflexivity | reflexivity].
  erewrite pull_skip; [| reflexivity | apply next_loop_silent; cbv; reflexivity | cbv; reflexivity ].
  erewrite pull_skip; [| cbv; reflexivity |
    apply attr_value_collect; [reflexivity .. | exact Hok] | cbv; reflexivity ].
  generalize (token_text ts). intros v. cbv. reflexivity.
Qed.

Lemma rav_step : forall q t k p,
  quote (data p) = Some q -> attr_value_ok q t = true ->
  read_attribute_value t k p = Ok (None, set_buf (buf p ++ token_to_string t) p).
Proof.
  intros q t k p Hq Ht. destruct p as [cf lx s b n [] fe ne e ee pd iw rp pn];
    cbn in Hq; subst.
  unfold read_attribute_value, bind, gets, ret, modify, append_str_continue; cbn.
  destruct q, t; cbn in Ht; try discriminate Ht; reflexivity.
Qed.

Lemma rav_silent : forall q k ts p,
  (forall t p', st p' = st p -> dispatch_token t p' = read_attribute_value t k p') ->
  quote (data p) = Some q -> forallb (attr_value_ok q) ts = true ->
  silent ts p = Some (set_buf (buf p ++ token_text ts) p).
Proof.
  intros q k ts. induction ts as [|t ts IH]; intros p Hd Hq Hok.
  - destruct p; cbn; rewrite app_nil_r; reflexivity.
  - cbn in Hok. apply andb_true_iff in Hok as [Ht Hok].
    cbn [silent]. rewrite (Hd t p eq_refl), (rav_step q t k p Hq Ht).
    rewrite IH; [| destruct p; exact Hd | destruct p; exact Hq | exact Hok ].
    rewrite set_buf_set_buf, token_text_cons, app_assoc. destruct p; reflexivity.
Qed.

Lemma opening_value_dispatch : forall t p,
  st p = InsideOpeningTag InsideAttributeValue ->
  dispatch_token t p = read_attribute_value t on_attribute_value p.
Proof. intros t p Hs. destruct p; cbn in Hs; subst. reflexivity. Qed.

Lemma encoding_value_collected : forall q ts p rest,
  st p = InsideDeclaration InsideEncodingValue -> quote (data p) = Some q ->
  forallb (attr_value_ok q) ts = true ->
  next_loop (toks (ts ++ [as_token q]) ++ rest) p
  = next_loop rest
      (set_st (InsideDeclaration BeforeStandaloneDecl)
         (set_data (with_encoding (Some (buf p ++ token_text ts)) (with_quote None (data p)))
            (set_buf [] p))).
Proof.
  intros q ts p rest Hst Hq Hok.
  unfold toks. rewrite map_app, <- app_assoc. fold (toks ts).
  rewrite (next_loop_silent ts p _ _ (rav_silent q _ ts p
    (fun t p' Hs => ltac:(destruct p'; cbn in Hs; rewrite Hst in Hs; subst; reflexivity))
    Hq Hok)).
  cbn [map app next_loop].
  destruct p as [cf lx s b n [] fe ne e ee pd iw rp pn]; cbn in Hst, Hq; subst.
  unfold dispatch_token, inside_declaration, read_attribute_value, bind, gets, ret, modify,
    modify_data, take_buf, into_state_continue, into_state.
  destruct q; unfold Token_eqb; cbn; reflexivity.
Qed.

(** X13: the value of the [encoding] pseudo-attribute of an XML declaration
    is reported verbatim in StartDocument, and no second StartDocument is
    emitted for the root element. *)
Lemma X13_declaration_encoding : forall cfg ts,
  forallb (attr_value_ok DoubleQuoteToken) ts = true ->
  pull_events 5 (new cfg)
    (toks ([ProcessingInstructionStart] ++ tchars "xml" ++ [Whitespace 32] ++ tchars "version"
           ++ [EqualsSign; DoubleQuote] ++ tchars "1.0" ++ [DoubleQuote; Whitespace 32]
           ++ tchars "encoding" ++ [EqualsSign; DoubleQuote] ++ ts
           ++ [DoubleQuote; ProcessingInstructionEnd; OpeningTagStart; Character 97; EmptyTagEnd]))
  = [events.StartDocument Version10 (token_text ts) None;
     events.StartElement (mkName None (rs "a") None) [] (nst_squash ([] :: nst_default));
     events.EndElement (mkName None (rs "a") None);
     events.EndDocument].
Proof.
  intros cfg ts Hok.
  replace (toks _) with
    (toks ([ProcessingInstructionStart] ++ tchars "xml" ++ [Whitespace 32] ++ tchars "version"
           ++ [EqualsSign; DoubleQuote] ++ tchars "1.0" ++ [DoubleQuote; Whitespace 32]
           ++ tchars "encoding" ++ [EqualsSign; DoubleQuote])
     ++ toks (ts ++ [as_token DoubleQuoteToken])
     ++ toks [ProcessingInstructionEnd; OpeningTagStart; Character 97; EmptyTagEnd])
    by (unfold toks; rewrite !map_app, <- !app_assoc; reflexivity).
  erewrite pull_skip; [| reflexivity | apply next_loop_silent; cbv; reflexivity | cbv; reflexivity ].
  erewrite pull_skip; [| cbv; reflexivity |
    apply encoding_value_collected; [reflexivity .. | exact Hok] | cbv; reflexivity ].
  generalize (token_text ts). intros v. cbv. reflexivity.
Qed.

(** X12: a [<] inside a quoted attribute value is an error, whatever text
    comes before it (the source test [opening_tag_in_attribute_value] for
    every such prefix). *)
Lemma X12_attribute_value_lt : forall cfg ts rest,
  forallb (attr_value_ok DoubleQuoteToken) ts = true ->
  pull_events 5 (new cfg)
    (toks ([OpeningTagStart; Character 97; Whitespace 32; Character 120; EqualsSign; DoubleQuote]
           ++ ts ++ OpeningTagStart :: rest))
  = [events.StartDocument Version10 (rs "UTF-8") None;
     events.Error (rs "Unexpected token inside attribute value: <")].
Proof.
  intros cfg ts rest Hok.
  replace (toks _) with
    (LexOk OpeningTagStart
     :: toks [Character 97; Whitespace 32; Character 120; EqualsSign; DoubleQuote]
     ++ toks ts ++ toks (OpeningTagStart :: rest))
    by (unfold toks; rewrite !map_app; reflexivity).
  erewrite pull_emit; [| reflexivity | cbv; reflexivity | reflexivity].
  erewrite pull_skip; [| reflexivity | apply next_loop_silent; cbv; reflexivity | cbv; reflexivity ].
  erewrite pull_skip; [| cbv; reflexivity |
    apply next_loop_silent; eapply (rav_silent DoubleQuoteToken);
    [intros t p' Hs; apply opening_value_dispatch; rewrite Hs; reflexivity
    | reflexivity | exact Hok] | cbv; reflexivity ].
  generalize (token_text ts). intros v. cbv. reflexivity.
Qed.

(** X14: in [<p:a xmlns:p=QuQ/>] (Q a double quote) with a non-empty [u], the element name
    resolves to namespace [u], the declaration is not an attribute, and the
    scope of the StartElement maps [p] to [u]. *)
Lemma X14_prefix_binding : forall cfg ts,
  forallb (attr_value_ok DoubleQuoteToken) ts = true -> token_text ts <> [] ->
  pull_events 5 (new cfg)
    (toks ([OpeningTagStart; Character 112; Character 58; Character 97; Whitespace 32]
           ++ tchars "xmlns" ++ [Character 58; Character 112; EqualsSign; DoubleQuote]
           ++ ts ++ [DoubleQuote; EmptyTagEnd]))
  = [events.StartDocument Version10 (rs "UTF-8") None;
     events.StartElement (mkName (Some (rs "p")) (rs "a") (Some (token_text ts))) []
       (nst_squash ([(Some (rs "p"), token_text ts)] :: nst_default));
     events.EndElement (mkName (Some (rs "p")) (rs "a") (Some (token_text ts)));
     events.EndDocument].
Proof.
  intros cfg ts Hok Hne.
  replace (toks _) with
    (LexOk OpeningTagStart
     :: toks ([Character 112; Character 58; Character 97; Whitespace 32]
              ++ tchars "xmlns" ++ [Character 58; Character 112; EqualsSign; DoubleQuote])
     ++ toks ts ++ toks [DoubleQuote; EmptyTagEnd])
    by (unfold toks; rewrite !map_app, <- !app_assoc; reflexivity).
  erewrite pull_emit; [| reflexivity | cbv; reflexivity | reflexivity].
  erewrite pull_skip; [| reflexivity | apply next_loop_silent; cbv; reflexivity | cbv; reflexivity ].
  erewrite pull_skip; [| cbv; reflexivity |
    apply next_loop_silent; eapply (rav_silent DoubleQuoteToken);
    [intros t p' Hs; apply opening_value_dispatch; rewrite Hs; reflexivity
    | reflexivity | exact Hok] | cbv; reflexivity ].
  destruct (token_text ts) as [|c v]; [contradiction|]. cbv. reflexivity.
Qed.

Lemma text_step : forall t p,
  st p = OutsideTag -> est p <> [] -> text_token t = true ->
  dispatch_token t p = Ok (None, set_buf (buf p ++ token_to_string t)
                                   (set_inside_whitespace (inside_whitespace p && is_ws_token t) p)).
Proof.
  intros t p Hst He Ht. destruct p as [cf lx s b n d fe ne e ee pd iw rp pn];
    cbn in Hst, He; subst. destruct e as [|n0 e]; [contradiction|].
  unfold text_token, Token_eqb in Ht.
  unfold dispatch_token, outside_tag, bind, gets, ret, modify, append_str_continue,
    append_char_continue; cbn.
  destruct t; cbn in Ht; try discriminate Ht; cbn; rewrite ?andb_true_r, ?andb_false_r;
    reflexivity.
Qed.

Lemma text_silent : forall ts p,
  st p = OutsideTag -> est p <> [] -> forallb text_token ts = true ->
  silent ts p = Some (set_buf (buf p ++ token_text ts)
                        (set_inside_whitespace (inside_whitespace p && forallb is_ws_token ts) p)).
Proof.
  induction ts as [|t ts IH]; intros p Hst He Hok.
  - destruct p; cbn; rewrite app_nil_r, andb_true_r; reflexivity.
  - cbn in Hok. apply andb_true_iff in Hok as [Ht Hok].
    cbn [silent]. rewrite (text_step t p Hst He Ht).
    rewrite IH; [| destruct p; assumption.. ].
    rewrite token_text_cons, app_assoc. destruct p; cbn - [token_text]. rewrite andb_assoc. reflexivity.
Qed.

Lemma utf8_len_pos : forall s, s <> [] -> (utf8_len s >? 0) = true.
Proof.
  assert (Hw : forall c, 1 <= utf8_width c)
    by (intros c; unfold utf8_width; destruct (c <? 128), (c <? 2048), (c <? 65536); lia).
  assert (Hn : forall s, 0 <= utf8_len s).
  { induction s as [|c s IH]; unfold utf8_len in *; cbn [fold_right]; [lia|].
    specialize (Hw c). lia. }
  intros [|c s] H; [contradiction|]. apply Z.gtb_lt. specialize (Hw c). specialize (Hn s).
  unfold utf8_len in *; cbn [fold_right]. lia.
Qed.

(** X15: the text of [<a>t</a>], made of character-data tokens not all
    whitespace, is reported as one [Characters] event between StartElement
    and EndElement, trimmed when [trim_whitespace] is on. *)
Lemma X15_element_text : forall cfg ts,
  forallb text_token ts = true -> existsb (fun t => negb (is_ws_token t)) ts = true ->
  token_text ts <> [] ->
  pull_events 6 (new cfg)
    (toks ([OpeningTagStart; Character 97; TagEnd] ++ ts ++ [ClosingTagStart; Character 97; TagEnd]))
  = [events.StartDocument Version10 (rs "UTF-8") None;
     events.StartElement (mkName None (rs "a") None) [] (nst_squash ([] :: nst_default));
     events.Characters (if trim_whitespace cfg then trim_ws (token_text ts) else token_text ts);
     events.EndElement (mkName None (rs "a") None);
     events.EndDocument].
Proof.
  intros cfg ts Hok Hex Hne.
  assert (Hws : forallb is_ws_token ts = false).
  { apply not_true_iff_false. intros Hall. rewrite forallb_forall in Hall.
    apply existsb_exists in Hex as [t [Hin Ht]]. rewrite (Hall t Hin) in Ht. discriminate Ht. }
  pose proof (utf8_len_pos _ Hne) as Hl.
  replace (toks _) with
    (LexOk OpeningTagStart :: toks [Character 97] ++ LexOk TagEnd :: toks ts
     ++ LexOk ClosingTagStart :: toks [Character 97] ++ [LexOk TagEnd])
    by (unfold toks; rewrite !map_app; reflexivity).
  revert Hl. destruct cfg as [[] wc cd ic co]; intros Hl;
  (erewrite pull_emit; [| reflexivity | cbv; reflexivity | reflexivity]);
  (erewrite pull_skip; [| reflexivity | apply next_loop_silent; cbv; reflexivity
                       | cbv; reflexivity ]);
  (erewrite pull_emit; [| cbv; reflexivity | cbv; reflexivity | reflexivity]);
  (erewrite pull_skip; [| cbv; reflexivity |
    apply next_loop_silent; apply text_silent; [reflexivity | discriminate | exact Hok]
    | cbv; reflexivity ]);
  rewrite Hws; revert Hl; generalize (token_text ts); intros v Hl;
  (erewrite pull_emit;
    [| cbv; reflexivity
     | cbv delta -[utf8_len Z.gtb] beta iota zeta; rewrite Hl; cbv; reflexivity
     | reflexivity ]);
  (erewrite pull_skip; [| cbv; reflexivity | apply next_loop_silent; cbv; reflexivity
                       | cbv; reflexivity ]);
  (erewrite pull_emit; [| cbv; reflexivity | cbv; reflexivity | reflexivity]);
  cbv; reflexivity.
Qed.

Lemma top_ws_step : forall c p,
  st p = OutsideTag -> est p = [] -> dispatch_token (Whitespace c) p = Ok (None, p).
Proof.
  intros c p Hst He. destruct p; cbn in Hst, He; subst. reflexivity.
Qed.

Lemma top_ws_silent : forall ws p,
  st p = OutsideTag -> est p = [] -> forallb is_ws_token ws = true -> silent ws p = Some p.
Proof.
  induction ws as [|t ws IH]; intros p Hst He Hok; [reflexivity|].
  cbn in Hok. apply andb_true_iff in Hok as [Ht Hok].
  destruct t; try discriminate Ht. cbn [silent]. rewrite top_ws_step by assumption.
  apply IH; assumption.
Qed.

(** X16: before the root element whitespace is skipped, and the first non-
    whitespace character-data token is an error [Unexpected characters
    outside the root element], which ends the stream. *)
Lemma X16_prolog_characters_error : forall ws t rest p,
  st p = OutsideTag -> est p = [] -> forallb is_ws_token ws = true ->
  contains_char_data t = true -> is_ws_token t = false ->
  next_loop (toks (ws ++ t :: rest)) p
  = Ok (error (rs "Unexpected characters outside the root element: " ++ token_to_string t),
        set_finish_event
          (Some (error (rs "Unexpected characters outside the root element: " ++ token_to_string t))) p,
        toks rest).
Proof.
  intros ws t rest p Hst He Hws Hc Ht.
  unfold toks. rewrite map_app. fold (toks ws).
  rewrite (next_loop_silent ws p p _ (top_ws_silent ws p Hst He Hws)).
  cbn [map next_loop].
  destruct p as [cf lx s b n d fe ne e ee pd iw rp pn]; cbn in Hst, He; subst.
  unfold dispatch_token, outside_tag, bind, gets, ret. cbn.
  destruct t; cbn in Hc, Ht; try discriminate; reflexivity.
Qed.

(** X17: after the root element, trailing whitespace is skipped and the end
    of the stream gives EndDocument. *)
Lemma X17_epilogue_whitespace_end : forall ws p,
  st p = OutsideTag -> est p = [] -> encountered_element p = true ->
  forallb is_ws_token ws = true ->
  next_loop (toks ws) p
  = Ok (events.EndDocument, set_finish_event (Some events.EndDocument) p, []).
Proof.
  intros ws p Hst He Hen Hws.
  rewrite <- (app_nil_r (toks ws)).
  rewrite (next_loop_silent ws p p _ (top_ws_silent ws p Hst He Hws)).
  cbn [next_loop]. unfold end_of_stream_event, depth. rewrite He, Hen, Hst. reflexivity.
Qed.

(** X18: when the attribute loop of [emit_start_element] succeeds, every
    attribute keeps its value, prefix and local name, in order, and gets the
    namespace its prefix is bound to (none for the empty URI). *)
Lemma X18_resolve_attributes_inr : forall n attrs attrs',
  resolve_attributes n attrs = inr attrs' -> Forall2 (attr_resolved n) attrs attrs'.
Proof.
  intros n. induction attrs as [|[an v] rest IH]; intros attrs' H; cbn in H.
  - injection H as <-. constructor.
  - destruct (nst_get n (prefix an)) as [u|] eqn:Eu; [|discriminate H].
    destruct (resolve_attributes n rest) as [bad|rest'] eqn:Er; [discriminate H|].
    injection H as <-. constructor.
    + unfold attr_resolved, with_namespace. cbn. repeat split; [reflexivity..|]. exists u. split; [exact Eu | reflexivity].
    + apply IH. reflexivity.
Qed.

(** X19: when the attribute loop of [emit_start_element] fails, the reported
    attribute is the first one whose prefix is unbound. *)
Lemma X19_resolve_attributes_inl : forall n attrs bad,
  resolve_attributes n attrs = inl bad ->
  exists v pre post, attrs = pre ++ (bad, v) :: post /\ nst_get n (prefix bad) = None
    /\ Forall (prefix_bound n) pre.
Proof.
  intros n. induction attrs as [|[an v] rest IH]; intros bad H; cbn in H; [discriminate H|].
  destruct (nst_get n (prefix an)) as [u|] eqn:Eu.
  - destruct (resolve_attributes n rest) as [bad'|rest'] eqn:Er; [|discriminate H].
    injection H as <-. destruct (IH bad' eq_refl) as (v' & pre & post & -> & Hb & Hpre).
    exists v', ((an, v) :: pre), post. split; [reflexivity|]. split; [exact Hb|].
    constructor; [unfold prefix_bound; cbn; rewrite Eu; discriminate | exact Hpre].
  - injection H as <-. exists v, [], rest. split; [reflexivity|]. split; [exact Eu | constructor].
Qed.

Lemma streqb_true : forall a b, streqb a b = true -> a = b.
Proof. intros a b H. unfold streqb in H. destruct (rstring_eq_dec a b); [assumption | discriminate H]. Qed.

(** X20: a reference name longer than two bytes whose first two bytes are
    not a char boundary (e.g. one starting with a three-byte char) makes
    [inside_reference] panic on the slice [name[0..2]]. *)
Lemma X20_reference_slice_panic : forall nm prev p,
  ref_data (data p) = nm -> 2 < utf8_len nm -> str_slice nm 0 2 = None ->
  inside_reference ReferenceEnd prev p = Panic "byte index is not a char boundary".
Proof.
  intros nm prev p Hr Hl Hs.
  assert (Hnot : forall lit, str_slice lit 0 2 <> None -> streqb nm lit = false).
  { intros lit Hlit. destruct (streqb nm lit) eqn:E; [|reflexivity].
    apply streqb_true in E. subst. contradiction. }
  unfold inside_reference, bind, gets, take_ref_data, take_data. rewrite Hr.
  cbv beta iota. unfold decode_reference.
  rewrite (Hnot (rs "lt")) by (vm_compute; discriminate).
  rewrite (Hnot (rs "gt")) by (vm_compute; discriminate).
  rewrite (Hnot (rs "amp")) by (vm_compute; discriminate).
  rewrite (Hnot (rs "apos")) by (vm_compute; discriminate).
  rewrite (Hnot (rs "quot")) by (vm_compute; discriminate).
  replace (streqb nm []) with false
    by (destruct nm; [unfold utf8_len in Hl; cbn in Hl; lia | reflexivity]).
  replace (2 <? utf8_len nm) with true by (symmetry; apply Z.ltb_lt; exact Hl).
  unfold bind, slice_or_panic. rewrite Hs. reflexivity.
Qed.

Lemma attr_reference_silent : forall q nm c p,
  st p = InsideOpeningTag InsideAttributeValue -> quote (data p) = Some q ->
  ref_data (data p) = [] -> In (nm, c) predefined_entities ->
  silent (ReferenceStart :: map Character nm ++ [ReferenceEnd]) p = Some (set_buf (buf p ++ [c]) p).
Proof.
  intros q nm c p Hst Hq Hr Hin. destruct p as [cf lx s b n [] fe ne e ee pd iw rp pn];
    cbn in Hst, Hq, Hr; subst.
  cbn in Hin; repeat (destruct Hin as [Hin|Hin]; [injection Hin as <- <-; reflexivity|]);
    contradiction.
Qed.

(** X21: a predefined entity inside an attribute value is replaced by its
    char in place, between the text before and after it. *)
Lemma X21_attribute_reference : forall cfg ts1 nm c ts2,
  forallb (attr_value_ok DoubleQuoteToken) ts1 = true ->
  forallb (attr_value_ok DoubleQuoteToken) ts2 = true ->
  In (nm, c) predefined_entities ->
  pull_events 5 (new cfg)
    (toks ([OpeningTagStart; Character 97; Whitespace 32; Character 120; EqualsSign; DoubleQuote]
           ++ ts1 ++ [ReferenceStart] ++ map Character nm ++ [ReferenceEnd] ++ ts2
           ++ [DoubleQuote; EmptyTagEnd]))
  = [events.StartDocument Version10 (rs "UTF-8") None;
     events.StartElement (mkName None (rs "a") None)
       [(mkName None (rs "x") None, token_text ts1 ++ c :: token_text ts2)]
       (nst_squash ([] :: nst_default));
     events.EndElement (mkName None (rs "a") None);
     events.EndDocument].
Proof.
  intros cfg ts1 nm c ts2 Hok1 Hok2 Hin.
  replace (toks _) with
    (LexOk OpeningTagStart
     :: toks [Character 97; Whitespace 32; Character 120; EqualsSign; DoubleQuote]
     ++ toks ts1 ++ toks (ReferenceStart :: map Character nm ++ [ReferenceEnd])
     ++ toks ts2 ++ toks [DoubleQuote; EmptyTagEnd])
    by (unfold toks; rewrite !map_app; cbn [map app]; rewrite !map_app, <- !app_assoc;
        reflexivity).
  erewrite pull_emit; [| reflexivity | cbv; reflexivity | reflexivity].
  erewrite pull_skip; [| reflexivity | apply next_loop_silent; cbv; reflexivity
                       | cbv; reflexivity ].
  erewrite pull_skip; [| cbv; reflexivity |
    apply next_loop_silent; eapply (rav_silent DoubleQuoteToken);
    [intros t p' Hs; apply opening_value_dispatch; rewrite Hs; reflexivity
    | reflexivity | exact Hok1] | cbv; reflexivity ].
  erewrite pull_skip; [| cbv; reflexivity |
    apply next_loop_silent; apply (attr_reference_silent DoubleQuoteToken);
    [reflexivity | reflexivity | reflexivity | exact Hin] | cbv; reflexivity ].
  erewrite pull_skip; [| cbv; reflexivity |
    apply next_loop_silent; eapply (rav_silent DoubleQuoteToken);
    [intros t p' Hs; apply opening_value_dispatch; rewrite Hs; reflexivity
    | reflexivity | exact Hok2] | cbv; reflexivity ].
  cbn [buf set_buf]. rewrite <- !app_assoc. cbn [app].
  generalize (token_text ts1), (token_text ts2). intros v1 v2. cbv. reflexivity.
Qed.

(** X22: an attribute given twice in one tag is not rejected: both are
    reported, in order, in the StartElement. *)
Lemma X22_repeated_attribute : forall cfg ts1 ts2,
  forallb (attr_value_ok DoubleQuoteToken) ts1 = true ->
  forallb (attr_value_ok DoubleQuoteToken) ts2 = true ->
  pull_events 5 (new cfg)
    (toks ([OpeningTagStart; Character 97; Whitespace 32; Character 120; EqualsSign; DoubleQuote]
           ++ ts1 ++ [DoubleQuote; Whitespace 32; Character 120; EqualsSign; DoubleQuote]
           ++ ts2 ++ [DoubleQuote; EmptyTagEnd]))
  = [events.StartDocument Version10 (rs "UTF-8") None;
     events.StartElement (mkName None (rs "a") None)
       [(mkName None (rs "x") None, token_text ts1); (mkName None (rs "x") None, token_text ts2)]
       (nst_squash ([] :: nst_default));
     events.EndElement (mkName None (rs "a") None);
     events.EndDocument].
Proof.
  intros cfg ts1 ts2 Hok1 Hok2.
  replace (toks _) with
    (LexOk OpeningTagStart
     :: toks [Character 97; Whitespace 32; Character 120; EqualsSign; DoubleQuote]
     ++ toks (ts1 ++ [as_token DoubleQuoteToken])
     ++ toks [Whitespace 32; Character 120; EqualsSign; DoubleQuote]
     ++ toks (ts2 ++ [as_token DoubleQuoteToken]) ++ [LexOk EmptyTagEnd])
    by (unfold toks; rewrite !map_app, <- !app_assoc; reflexivity).
  erewrite pull_emit; [| reflexivity | cbv; reflexivity | reflexivity].
  erewrite pull_skip; [| reflexivity | apply next_loop_silent; cbv; reflexivity
                       | cbv; reflexivity ].
  erewrite pull_skip; [| cbv; reflexivity |
    apply attr_value_collect; [reflexivity .. | exact Hok1] | cbv; reflexivity ].
  generalize (token_text ts1). intros v1.
  erewrite pull_skip; [| cbv; reflexivity | apply next_loop_silent; cbv; reflexivity
                       | cbv; reflexivity ].
  erewrite pull_skip; [| cbv; reflexivity |
    apply attr_value_collect; [reflexivity .. | exact Hok2] | cbv; reflexivity ].
  generalize (token_text ts2). intros v2. cbv. reflexivity.
Qed.

(** ** Witnesses of the further properties *)

Lemma X1_witness :
  next_loop (toks [Chunk (rs "hi"); CommentEnd])
    (set_st InsideComment (new (mkConfig false false false false true)))
  = Ok (events.Comment (rs "hi"),
        set_st OutsideTag (set_buf [] (set_lexer (mkLexer true)
          (set_st InsideComment (new (mkConfig false false false false true))))), []).
Proof.
  exact (X1_comment_kept [Chunk (rs "hi")]
           (set_st InsideComment (new (mkConfig false false false false true))) []
           eq_refl eq_refl eq_refl).
Defined.

Lemma X2_witness :
  next_loop (toks [Chunk (rs "hi"); CommentEnd]) (set_st InsideComment (new cfg_plain))
  = next_loop [] (set_st OutsideTag (set_lexer (mkLexer true)
                   (set_st InsideComment (new cfg_plain)))).
Proof.
  exact (X2_comment_ignored [Chunk (rs "hi")] (set_st InsideComment (new cfg_plain)) []
           eq_refl eq_refl eq_refl).
Defined.

Lemma X3_witness :
  next_loop (toks [Character 60; Whitespace 32; CDataEnd]) (set_st InsideCData (new cfg_plain))
  = Ok (events.CData [60; 32],
        set_st OutsideTag (set_buf [] (set_lexer (mkLexer true)
          (set_inside_whitespace false (set_st InsideCData (new cfg_plain))))), []).
Proof.
  exact (X3_cdata_emitted [Character 60; Whitespace 32] (set_st InsideCData (new cfg_plain)) []
           eq_refl eq_refl eq_refl).
Defined.

Lemma X4_witness :
  next_loop (toks [Character 60; CDataEnd])
    (set_st InsideCData (new (mkConfig false false true true true)))
  = next_loop [] (set_st OutsideTag (set_lexer (mkLexer true)
      (set_buf [60] (set_inside_whitespace false
         (set_st InsideCData (new (mkConfig false false true true true))))))).
Proof.
  exact (X4_cdata_merged [Character 60]
           (set_st InsideCData (new (mkConfig false false true true true))) []
           eq_refl eq_refl eq_refl).
Defined.

Lemma X5_witness :
  next_loop (toks [Character 120; OpeningTagStart; TagEnd]) (set_st InsideDoctype (new cfg_plain))
  = next_loop [] (set_st OutsideTag (set_lexer (mkLexer true)
                   (set_st InsideDoctype (new cfg_plain)))).
Proof.
  exact (X5_doctype_skipped [Character 120; OpeningTagStart] (set_st InsideDoctype (new cfg_plain))
           [] eq_refl eq_refl).
Defined.

Lemma X6_witness :
  next_loop (toks [Character 120; ProcessingInstructionEnd])
    (set_data (with_name (rs "pi") empty_data)
       (set_st (InsideProcessingInstruction PIInsideData) (new cfg_plain)))
  = Ok (events.ProcessingInstruction (rs "pi") (Some [120]),
        set_st OutsideTag (set_buf [] (set_data empty_data (set_lexer (mkLexer true)
          (set_data (with_name (rs "pi") empty_data)
             (set_st (InsideProcessingInstruction PIInsideData) (new cfg_plain)))))), []).
Proof.
  exact (X6_pi_data_emitted [Character 120]
           (set_data (with_name (rs "pi") empty_data)
              (set_st (InsideProcessingInstruction PIInsideData) (new cfg_plain))) []
           eq_refl eq_refl).
Defined.

Lemma X7_witness :
  inside_reference ReferenceEnd OutsideTag (set_data (with_ref_data (rs "amp") empty_data) (new cfg_plain))
  = Ok (None, set_st OutsideTag (set_buf [38] (set_data empty_data
                (set_data (with_ref_data (rs "amp") empty_data) (new cfg_plain))))).
Proof.
  apply (X7_predefined_reference (rs "amp") 38).
  - right; right; left; reflexivity.
  - reflexivity.
Defined.

Lemma X8_witness :
  decode_reference (35 :: map dec_char [6; 5]) (new cfg_plain) = Ok (inr 65, new cfg_plain).
Proof.
  rewrite (X8_decimal_reference [6; 5] (new cfg_plain)).
  - reflexivity.
  - discriminate.
  - discriminate.
  - repeat (apply Forall_cons; [lia|]). apply Forall_nil.
Defined.

Lemma X9_witness :
  decode_reference (35 :: 120 :: map hex_char [4; 1]) (new cfg_plain) = Ok (inr 65, new cfg_plain).
Proof.
  rewrite (X9_hexadecimal_reference [4; 1] (new cfg_plain)).
  - reflexivity.
  - discriminate.
  - discriminate.
  - repeat (apply Forall_cons; [lia|]). apply Forall_nil.
Defined.

Lemma X10_witness :
  next_loop (toks [Character 122; DoubleQuote])
    (set_data (with_attr_name (Some (new_local (rs "x"))) (with_quote (Some DoubleQuoteToken) empty_data))
       (set_st (InsideOpeningTag InsideAttributeValue) (new cfg_plain)))
  = next_loop [] (set_st (InsideOpeningTag InsideTag)
      (set_data (with_attributes [(new_local (rs "x"), [122])] empty_data)
         (set_buf []
            (set_data (with_attr_name (Some (new_local (rs "x")))
                         (with_quote (Some DoubleQuoteToken) empty_data))
               (set_st (InsideOpeningTag InsideAttributeValue) (new cfg_plain)))))).
Proof.
  exact (X10_attribute_value_collected DoubleQuoteToken [Character 122] (new_local (rs "x"))
           (set_data (with_attr_name (Some (new_local (rs "x")))
                        (with_quote (Some DoubleQuoteToken) empty_data))
              (set_st (InsideOpeningTag InsideAttributeValue) (new cfg_plain))) []
           eq_refl eq_refl eq_refl eq_refl eq_refl).
Defined.

Lemma X11_witness :
  pull_events 5 (new cfg_plain)
    (toks [OpeningTagStart; Character 97; Whitespace 32; Character 120; EqualsSign; DoubleQuote;
           Character 122; ReferenceEnd; Character 122; DoubleQuote; EmptyTagEnd])
  = [events.StartDocument Version10 (rs "UTF-8") None;
     events.StartElement (mkName None (rs "a") None) [(mkName None (rs "x") None, rs "z;z")]
       (nst_squash ([] :: nst_default));
     events.EndElement (mkName None (rs "a") None);
     events.EndDocument].
Proof.
  exact (X11_attribute_document cfg_plain [Character 122; ReferenceEnd; Character 122] eq_refl).
Defined.

Lemma X12_witness :
  pull_events 5 (new cfg_plain)
    (toks [OpeningTagStart; Character 97; Whitespace 32; Character 120; EqualsSign; DoubleQuote;
           Character 122; OpeningTagStart; Character 122; DoubleQuote; EmptyTagEnd])
  = [events.StartDocument Version10 (rs "UTF-8") None;
     events.Error (rs "Unexpected token inside attribute value: <")].
Proof.
  exact (X12_attribute_value_lt cfg_plain [Character 122] [Character 122; DoubleQuote; EmptyTagEnd]
           eq_refl).
Defined.

Lemma X13_witness :
  pull_events 5 (new cfg_plain)
    (toks ([ProcessingInstructionStart] ++ tchars "xml" ++ [Whitespace 32] ++ tchars "version"
           ++ [EqualsSign; DoubleQuote] ++ tchars "1.0" ++ [DoubleQuote; Whitespace 32]
           ++ tchars "encoding" ++ [EqualsSign; DoubleQuote] ++ tchars "ascii"
           ++ [DoubleQuote; ProcessingInstructionEnd; OpeningTagStart; Character 97; EmptyTagEnd]))
  = [events.StartDocument Version10 (rs "ascii") None;
     events.StartElement (mkName None (rs "a") None) [] (nst_squash ([] :: nst_default));
     events.EndElement (mkName None (rs "a") None);
     events.EndDocument].
Proof. exact (X13_declaration_encoding cfg_plain (tchars "ascii") eq_refl). Defined.

Lemma X14_witness :
  pull_events 5 (new cfg_plain)
    (toks ([OpeningTagStart; Character 112; Character 58; Character 97; Whitespace 32]
           ++ tchars "xmlns" ++ [Character 58; Character 112; EqualsSign; DoubleQuote]
           ++ tchars "urn" ++ [DoubleQuote; EmptyTagEnd]))
  = [events.StartDocument Version10 (rs "UTF-8") None;
     events.StartElement (mkName (Some (rs "p")) (rs "a") (Some (rs "urn"))) []
       (nst_squash ([(Some (rs "p"), rs "urn")] :: nst_default));
     events.EndElement (mkName (Some (rs "p")) (rs "a") (Some (rs "urn")));
     events.EndDocument].
Proof.
  apply (X14_prefix_binding cfg_plain (tchars "urn")).
  - reflexivity.
  - intros H. vm_compute in H. discriminate H.
Defined.

Lemma X15_witness :
  pull_events 6 (new cfg_plain)
    (toks [OpeningTagStart; Character 97; TagEnd; Character 104; Character 105;
           ClosingTagStart; Character 97; TagEnd])
  = [events.StartDocument Version10 (rs "UTF-8") None;
     events.StartElement (mkName None (rs "a") None) [] (nst_squash ([] :: nst_default));
     events.Characters (rs "hi");
     events.EndElement (mkName None (rs "a") None);
     events.EndDocument].
Proof.
  apply (X15_element_text cfg_plain [Character 104; Character 105]).
  - reflexivity.
  - reflexivity.
  - intros H. vm_compute in H. discriminate H.
Defined.

Lemma X16_witness :
  next_loop (toks [Whitespace 32; Character 120]) (new cfg_plain)
  = Ok (error (rs "Unexpected characters outside the root element: x"),
        set_finish_event (Some (error (rs "Unexpected characters outside the root element: x")))
          (new cfg_plain), []).
Proof.
  exact (X16_prolog_characters_error [Whitespace 32] (Character 120) [] (new cfg_plain)
           eq_refl eq_refl eq_refl eq_refl eq_refl).
Defined.

Lemma X17_witness :
  next_loop (toks [Whitespace 10; Whitespace 32]) (set_encountered_element true (new cfg_plain))
  = Ok (events.EndDocument,
        set_finish_event (Some events.EndDocument) (set_encountered_element true (new cfg_plain)), []).
Proof.
  exact (X17_epilogue_whitespace_end [Whitespace 10; Whitespace 32]
           (set_encountered_element true (new cfg_plain)) eq_refl eq_refl eq_refl eq_refl).
Defined.

Lemma X18_witness :
  Forall2 (attr_resolved nst_default) [(new_local (rs "x"), rs "1")] [(new_local (rs "x"), rs "1")].
Proof. apply X18_resolve_attributes_inr. reflexivity. Defined.

Lemma X19_witness :
  exists v pre post,
    [(new_local (rs "x"), rs "1"); (mkName (Some (rs "q")) (rs "y") None, rs "2")]
    = pre ++ (mkName (Some (rs "q")) (rs "y") None, v) :: post
    /\ nst_get nst_default (Some (rs "q")) = None /\ Forall (prefix_bound nst_default) pre.
Proof.
  apply (X19_resolve_attributes_inl nst_default
           [(new_local (rs "x"), rs "1"); (mkName (Some (rs "q")) (rs "y") None, rs "2")]).
  reflexivity.
Defined.

Lemma X20_witness :
  inside_reference ReferenceEnd OutsideTag (set_data (with_ref_data [20013] empty_data) (new cfg_plain))
  = Panic "byte index is not a char boundary".
Proof.
  apply (X20_reference_slice_panic [20013]).
  - reflexivity.
  - vm_compute. reflexivity.
  - reflexivity.
Defined.

Lemma X21_witness :
  pull_events 5 (new cfg_plain)
    (toks [OpeningTagStart; Character 97; Whitespace 32; Character 120; EqualsSign; DoubleQuote;
           Character 49; ReferenceStart; Character 108; Character 116; ReferenceEnd; Character 50;
           DoubleQuote; EmptyTagEnd])
  = [events.StartDocument Version10 (rs "UTF-8") None;
     events.StartElement (mkName None (rs "a") None) [(mkName None (rs "x") None, [49; 60; 50])]
       (nst_squash ([] :: nst_default));
     events.EndElement (mkName None (rs "a") None);
     events.EndDocument].
Proof.
  apply (X21_attribute_reference cfg_plain [Character 49] (rs "lt") 60 [Character 50]).
  - reflexivity.
  - reflexivity.
  - left. reflexivity.
Defined.

Lemma X22_witness :
  pull_events 5 (new cfg_plain)
    (toks [OpeningTagStart; Character 97; Whitespace 32; Character 120; EqualsSign; DoubleQuote;
           Character 49; DoubleQuote; Whitespace 32; Character 120; EqualsSign; DoubleQuote;
           Character 50; DoubleQuote; EmptyTagEnd])
  = [events.StartDocument Version10 (rs "UTF-8") None;
     events.StartElement (mkName None (rs "a") None)
       [(mkName None (rs "x") None, [49]); (mkName None (rs "x") None, [50])]
       (nst_squash ([] :: nst_default));
     events.EndElement (mkName None (rs "a") None);
     events.EndDocument].
Proof. exact (X22_repeated_attribute cfg_plain [Character 49] [Character 50] eq_refl eq_refl). Defined.
